(** * Schema migration engine: model and properties

    Shallow embedding of
      - internal/database/migrations/migration.go   (Migrator: Up, Down, Status, Reset)
      - internal/database/migrations/versions/*.go  (MigrationStep, step 003)
      - cmd/migrate/main.go                         (the CLI dispatch)

    The relational store behind [*gorm.DB] is modelled as a value [DB]
    that is passed explicitly: the [migrations] table (the Ledger) plus
    the rest of the database, whose type [Store] is left to the embedding
    application.  A step closure [func(tx *gorm.DB) error] receives the
    whole database, as in Go, and returns the error (or nil) together
    with the database it leaves behind.  [db.Transaction] keeps that
    database on a nil error and restores the one it started from
    otherwise.  The wall clock is an oracle [now]: [now i] is the i-th
    value [time.Now()] yields during the process run.  [log] output is
    not modelled, except the table rows printed by [Status]. *)

From stdpp Require Import base option strings list gmap sorting pretty.
From Stdlib Require Import ZArith Ascii.

Local Open Scope Z_scope.

(** ** Go values *)

(** [time.Time], as an instant on an integer time line. *)
Definition Time := Z.

(** Go's [error] values, as far as the engine builds or inspects them. *)
Inductive error : Type :=
  | ErrRecordNotFound                          (* gorm.ErrRecordNotFound *)
  | ErrMissingWhereClause                      (* gorm.ErrMissingWhereClause *)
  | errorString (msg : string)                 (* errors.New, fmt.Errorf without %w, driver errors *)
  | Errorf (prefix : string) (err : error).    (* fmt.Errorf("<prefix>: %w", err) *)

(** [err.Error()]. *)
Fixpoint Error (e : error) : string :=
  match e with
  | ErrRecordNotFound => "record not found"
  | ErrMissingWhereClause => "WHERE conditions required"
  | errorString msg => msg
  | Errorf prefix err => prefix +:+ ": " +:+ Error err
  end.

Global Instance error_eq_dec : EqDecision error.
Proof. solve_decision. Defined.

(** Errors of the store itself (PostgreSQL, through the driver). *)
Definition ErrUndefinedTable (name : string) : error :=
  errorString ("relation " +:+ name +:+ " does not exist (SQLSTATE 42P01)").
Definition ErrUniqueViolation (constraint : string) : error :=
  errorString ("duplicate key value violates unique constraint " +:+ constraint +:+ " (SQLSTATE 23505)").

(** ** The Ledger: type [Migration] and its table *)

(** [type Migration struct], one row of table [migrations]. *)
Record Migration : Type := {
  ID : nat;               (* uint, primaryKey *)
  Version : string;       (* unique; not null *)
  Description : string;   (* not null *)
  ExecutedAt : Time       (* not null *)
}.

(** The table: its rows in insertion order and the next value of the
    sequence behind the primary key. *)
Record MigrationsTable : Type := {
  rows : list Migration;
  next_id : nat
}.

Definition empty_table : MigrationsTable := {| rows := []; next_id := 1 |}.

Section Engine.

(** The part of the database that is not the Ledger. *)
Context {Store : Type}.

(** The clock: [now i] is what the i-th call of [time.Now()] returns. *)
Variable now : nat → Time.

(** [t.Format("2006-01-02 15:04:05")]. *)
Variable Format : Time → string.

(** The database a [*gorm.DB] handle gives access to; [None] for the
    Ledger means that table [migrations] does not exist. *)
Record DB : Type := {
  migrations_table : option MigrationsTable;
  store : Store
}.

(** What a process run can change: the database, and how many clock
    readings have been taken. *)
Record World : Type := {
  db : DB;
  ticks : nat
}.

(** A closure [func(tx *gorm.DB) error].  It is given the clock
    readings to come ([clk i] is the i-th reading from now on) and the
    database; it returns its error, the database it leaves, and how
    many readings it took. *)
Definition Action : Type := (nat → Time) → DB → option error * DB * nat.

(** [type MigrationStep struct] (package versions).  Its fields
    [Version], [Description], [Up] and [Down] carry the prefix [step_]:
    [Migration] has fields of the same names and [Migrator] methods. *)
Record MigrationStep : Type := {
  step_Version : string;
  step_Description : string;
  step_Up : Action;
  step_Down : Action
}.

(** [type Migrator struct]; the [db] field is the [World] passed to
    every method. *)
Record Migrator : Type := {
  migrations : list MigrationStep
}.

Definition NewMigrator : Migrator := {| migrations := [] |}.

Definition Register (m : Migrator) (step : MigrationStep) : Migrator :=
  {| migrations := migrations m ++ [step] |}.

(** [func RegisterMigrations(db *gorm.DB) *Migrator] (registry.go),
    given the three steps of package versions in their order. *)
Definition RegisterMigrations (migration001 migration002 migration003 : MigrationStep)
  : Migrator :=
  Register (Register (Register NewMigrator migration001) migration002) migration003.

(** What the engine is observed to do: the step closures it calls and
    the rows [Status] prints. *)
Inductive Event : Type :=
  | CallUp (version : string)       (* migration.Up(tx) *)
  | CallDown (version : string)     (* migrationStep.Down(tx) *)
  | StatusRow (version description status executedAt : string).

(** *** The gorm calls the engine makes *)

Definition clock_from (n : nat) : nat → Time := λ i, now (n + i)%nat.

(** [time.Now()] *)
Definition time_Now (w : World) : Time * World :=
  (now (ticks w), {| db := db w; ticks := S (ticks w) |}).

(** Running a closure on a handle. *)
Definition call (a : Action) (w : World) : option error * World :=
  let '(err, d, n) := a (clock_from (ticks w)) (db w) in
  (err, {| db := d; ticks := (ticks w + n)%nat |}).

(** [db.Transaction(fc)]: commit on nil, roll back on an error.  Time
    spent is not given back.  The whole [DB] is restored, the key
    sequence of the Ledger with it; the properties below only use that
    the IDs the sequence gives are new. *)
Definition Transaction (fc : World → option error * World) (w : World)
  : option error * World :=
  let '(err, w') := fc w in
  match err with
  | Some e => (Some e, {| db := db w; ticks := ticks w' |})
  | None => (None, w')
  end.

Definition with_table (d : DB) (t : option MigrationsTable) : DB :=
  {| migrations_table := t; store := store d |}.

(** [db.AutoMigrate(&Migration{})]: create the table unless it exists. *)
Definition AutoMigrate (d : DB) : option error * DB :=
  match migrations_table d with
  | Some _ => (None, d)
  | None => (None, with_table d (Some empty_table))
  end.

(** [db.Migrator().DropTable(&Migration{})]: DROP TABLE IF EXISTS. *)
Definition DropTable (d : DB) : option error * DB :=
  (None, with_table d None).

(** [db.Find(&executedMigrations)] *)
Definition Find (d : DB) : error + list Migration :=
  match migrations_table d with
  | None => inl (ErrUndefinedTable "migrations")
  | Some t => inr (rows t)
  end.

(** [db.Order("executed_at asc").Find(&executedMigrations)] *)
Definition executed_at_le (a b : Migration) : Prop := ExecutedAt a ≤ ExecutedAt b.
Global Instance executed_at_le_dec : RelDecision executed_at_le.
Proof. intros a b. unfold executed_at_le. apply _. Defined.

Definition Find_order_executed_at_asc (d : DB) : error + list Migration :=
  match migrations_table d with
  | None => inl (ErrUndefinedTable "migrations")
  | Some t => inr (merge_sort executed_at_le (rows t))
  end.

(** ORDER BY executed_at desc, id: does [a] come before [b]?  ([First]
    adds the primary key to the ordering.) *)
Definition sorts_before (a b : Migration) : bool :=
  bool_decide (ExecutedAt b < ExecutedAt a)
  || (bool_decide (ExecutedAt a = ExecutedAt b) && bool_decide (ID a < ID b)%nat).

Definition first_row (rs : list Migration) : option Migration :=
  foldr (λ r best,
           match best with
           | None => Some r
           | Some b => Some (if sorts_before b r then b else r)
           end) None rs.

(** [db.Order("executed_at desc").First(&lastMigration)] *)
Definition First_order_executed_at_desc (d : DB) : error + Migration :=
  match migrations_table d with
  | None => inl (ErrUndefinedTable "migrations")
  | Some t =>
      match first_row (rows t) with
      | None => inl ErrRecordNotFound
      | Some r => inr r
      end
  end.

(** [tx.Create(&newMigration)]: the ID is zero, so the sequence supplies
    it; the unique index on [version] may refuse the row. *)
Definition Create (version description : string) (executedAt : Time) (d : DB)
  : option error * DB :=
  match migrations_table d with
  | None => (Some (ErrUndefinedTable "migrations"), d)
  | Some t =>
      if bool_decide (version ∈ Version <$> rows t)
      then (Some (ErrUniqueViolation "idx_migrations_version"), d)
      else
        let r := {| ID := next_id t; Version := version;
                    Description := description; ExecutedAt := executedAt |} in
        (None, with_table d (Some {| rows := rows t ++ [r]; next_id := S (next_id t) |}))
  end.

(** [tx.Delete(&lastMigration)]: DELETE ... WHERE id = lastMigration.ID;
    gorm refuses a delete without a condition, which is what a zero
    primary key gives. *)
Definition Delete (r : Migration) (d : DB) : option error * DB :=
  if bool_decide (ID r = 0%nat) then (Some ErrMissingWhereClause, d)
  else
    match migrations_table d with
    | None => (Some (ErrUndefinedTable "migrations"), d)
    | Some t =>
        (None, with_table d
                 (Some {| rows := filter (λ x, ID x ≠ ID r) (rows t);
                          next_id := next_id t |}))
    end.

(** *** Migrator *)

(** [func (m *Migrator) Initialize() error] *)
Definition Initialize (m : Migrator) (w : World) : option error * World :=
  let '(err, d) := AutoMigrate (db w) in
  (err, {| db := d; ticks := ticks w |}).

(** The loop that fills [executedMap]. *)
Definition build_executedMap (executedMigrations : list Migration) : gmap string bool :=
  foldl (λ executedMap migration, <[Version migration := true]> executedMap)
        ∅ executedMigrations.

(** [executedMap[version]]: a Go map yields the zero value for a
    missing key. *)
Definition index_bool (executedMap : gmap string bool) (version : string) : bool :=
  default false (executedMap !! version).

(** The closure [Up] passes to [db.Transaction]. *)
Definition Up_tx (migration : MigrationStep) (tx : World) : option error * World :=
  let '(err, tx1) := call (step_Up migration) tx in
  match err with
  | Some e =>
      (Some (Errorf ("failed to execute migration " +:+ step_Version migration) e), tx1)
  | None =>
      let '(executedAt, tx2) := time_Now tx1 in
      let '(err, d) := Create (step_Version migration) (step_Description migration)
                               executedAt (db tx2) in
      match err with
      | Some e =>
          (Some (Errorf ("failed to record migration " +:+ step_Version migration) e),
           {| db := d; ticks := ticks tx2 |})
      | None => (None, {| db := d; ticks := ticks tx2 |})
      end
  end.

(** The loop over [m.migrations] in [Up]. *)
Fixpoint Up_loop (executedMap : gmap string bool) (ms : list MigrationStep) (w : World)
  : option error * World * list Event :=
  match ms with
  | [] => (None, w, [])
  | migration :: rest =>
      if index_bool executedMap (step_Version migration)
      then Up_loop executedMap rest w
      else
        let '(err, w1) := Transaction (Up_tx migration) w in
        match err with
        | Some e =>
            (Some (Errorf ("failed to run migration " +:+ step_Version migration) e),
             w1, [CallUp (step_Version migration)])
        | None =>
            let '(err', w2, tr) := Up_loop executedMap rest w1 in
            (err', w2, CallUp (step_Version migration) :: tr)
        end
  end.

(** [func (m *Migrator) Up() error] *)
Definition Up (m : Migrator) (w : World) : option error * World * list Event :=
  match Initialize m w with
  | (Some e, w0) => (Some (Errorf "failed to initialize migrations table" e), w0, [])
  | (None, w0) =>
      match Find (db w0) with
      | inl e => (Some (Errorf "failed to fetch executed migrations" e), w0, [])
      | inr executedMigrations =>
          Up_loop (build_executedMap executedMigrations) (migrations m) w0
      end
  end.

(** The search loop of [Down]: the first step with that version. *)
Definition find_step (ms : list MigrationStep) (version : string) : option MigrationStep :=
  snd <$> list_find (λ migration, step_Version migration = version) ms.

(** The closure [Down] passes to [db.Transaction]. *)
Definition Down_tx (migrationStep : MigrationStep) (lastMigration : Migration) (tx : World)
  : option error * World :=
  let '(err, tx1) := call (step_Down migrationStep) tx in
  match err with
  | Some e =>
      (Some (Errorf ("failed to execute rollback for migration "
                       +:+ step_Version migrationStep) e), tx1)
  | None =>
      let '(err, d) := Delete lastMigration (db tx1) in
      match err with
      | Some e =>
          (Some (Errorf ("failed to remove migration record " +:+ Version lastMigration) e),
           {| db := d; ticks := ticks tx1 |})
      | None => (None, {| db := d; ticks := ticks tx1 |})
      end
  end.

(** [func (m *Migrator) Down() error] *)
Definition Down (m : Migrator) (w : World) : option error * World * list Event :=
  match First_order_executed_at_desc (db w) with
  | inl err =>
      if bool_decide (err = ErrRecordNotFound) then (None, w, [])
      else (Some (Errorf "failed to fetch last migration" err), w, [])
  | inr lastMigration =>
      match find_step (migrations m) (Version lastMigration) with
      | None =>
          (Some (errorString ("migration step not found for version: "
                                +:+ Version lastMigration)), w, [])
      | Some migrationStep =>
          let '(err, w1) := Transaction (Down_tx migrationStep lastMigration) w in
          match err with
          | Some e =>
              (Some (Errorf ("failed to roll back migration "
                               +:+ step_Version migrationStep) e),
               w1, [CallDown (step_Version migrationStep)])
          | None => (None, w1, [CallDown (step_Version migrationStep)])
          end
      end
  end.

(** [func truncate(s string, max int) string]; only called with
    [max = 24]. *)
Definition truncate (s : string) (max : nat) : string :=
  if bool_decide (String.length s ≤ max)%nat then s
  else String.substring 0 (max - 3) s +:+ "...".

(** The loop that fills [executed] in [Status]. *)
Definition build_executed (executedMigrations : list Migration) : gmap string Migration :=
  foldl (λ executed migration, <[Version migration := migration]> executed)
        ∅ executedMigrations.

(** One iteration of the printing loop of [Status]. *)
Definition status_row (executed : gmap string Migration) (migration : MigrationStep)
  : Event :=
  let '(status, executedAt) :=
    match executed !! step_Version migration with
    | Some exec => ("Executed", Format (ExecutedAt exec))
    | None => ("Pending", "")
    end in
  StatusRow (step_Version migration) (truncate (step_Description migration) 24)
            status executedAt.

(** [func (m *Migrator) Status() error] *)
Definition Status (m : Migrator) (w : World) : option error * World * list Event :=
  match Find_order_executed_at_asc (db w) with
  | inl e => (Some (Errorf "failed to fetch executed migrations" e), w, [])
  | inr executedMigrations =>
      (None, w, status_row (build_executed executedMigrations) <$> migrations m)
  end.

(** [func (m *Migrator) Reset() error] *)
Definition Reset (m : Migrator) (w : World) : option error * World * list Event :=
  match DropTable (db w) with
  | (Some e, d) =>
      (Some (Errorf "failed to drop migrations table" e),
       {| db := d; ticks := ticks w |}, [])
  | (None, d) =>
      match Up m {| db := d; ticks := ticks w |} with
      | (Some e, w1, tr) => (Some (Errorf "failed to re-run migrations" e), w1, tr)
      | (None, w1, tr) => (None, w1, tr)
      end
  end.

End Engine.

Arguments DB : clear implicits.
Arguments World : clear implicits.
Arguments Action : clear implicits.
Arguments MigrationStep : clear implicits.
Arguments Migrator : clear implicits.

(** ** The command line: cmd/migrate/main.go *)

(** [strings.ToLower], byte by byte: the letters A to Z are mapped to a
    to z and every other byte is kept.  Go works on runes; a byte from
    0x80 on is part of a rune of several bytes, whose lower case is never
    the one byte [y], so the comparison in [main] is decided the same
    way. *)
Definition lower_byte (c : Ascii.ascii) : Ascii.ascii :=
  let n := Ascii.N_of_ascii c in
  if ((65 <=? n) && (n <=? 90))%N then Ascii.ascii_of_N (n + 32) else c.

Fixpoint ToLower (s : string) : string :=
  match s with
  | EmptyString => EmptyString
  | String c rest => String (lower_byte c) (ToLower rest)
  end.

(** The flags [main] declares. *)
Record Flags : Type := {
  upCmd : bool;
  downCmd : bool;
  statusCmd : bool;
  resetCmd : bool;
  createCmd : string
}.

Section CLI.

Context {Store : Type}.
Variable now : nat → Time.
Variable Format : Time → string.

(** How the process ends: [log.Fatalf] exits with 1, returning from
    [main] with 0. *)
Definition exit_of (r : option error * World Store * list Event)
  : nat * World Store * list Event :=
  match r with
  | (Some _, w, tr) => (1%nat, w, tr)
  | (None, w, tr) => (0%nat, w, tr)
  end.

(** [func main()], after the flags are parsed and the database is
    connected.  [migrator] is what [migrations.RegisterMigrations(db)]
    returned and [response] what [fmt.Scanln(&response)] stored. *)
Definition main (migrator : Migrator Store) (flags : Flags) (response : string)
           (w : World Store) : nat * World Store * list Event :=
  if upCmd flags then exit_of (Up now migrator w)
  else if downCmd flags then exit_of (Down now migrator w)
  else if statusCmd flags then exit_of (Status Format migrator w)
  else if resetCmd flags then
    if bool_decide (ToLower response ≠ "y") then (0%nat, w, [])   (* os.Exit(0) *)
    else exit_of (Reset now migrator w)
  else if bool_decide (createCmd flags ≠ "") then (0%nat, w, [])
  else (1%nat, w, []).                                            (* os.Exit(1) *)

End CLI.

(** ** Package models: the user table *)

Module models.

(** [type User struct] *)
Record User : Type := {
  ID : nat;
  Email : string;          (* unique; not null *)
  Password : string;
  FirstName : string;
  LastName : string;
  Role : string;
  IsActive : bool;
  CreatedAt : Time;
  UpdatedAt : Time;
  DeletedAt : option Time  (* gorm.DeletedAt: rows are deleted softly *)
}.

Definition RoleAdmin : string := "admin".
Definition RoleEditor : string := "editor".
Definition RoleUser : string := "user".

Section Hooks.

(** [bcrypt.GenerateFromPassword(password, bcrypt.DefaultCost)] *)
Variable GenerateFromPassword : string → error + string.

(** [func (u *User) BeforeCreate(tx *gorm.DB) (err error)] *)
Definition BeforeCreate (u : User) : option error * User :=
  let hashed :=
    if bool_decide (Password u ≠ "") then
      match GenerateFromPassword (Password u) with
      | inl err => inl err
      | inr hashedPassword =>
          inr {| ID := ID u; Email := Email u; Password := hashedPassword;
                 FirstName := FirstName u; LastName := LastName u; Role := Role u;
                 IsActive := IsActive u; CreatedAt := CreatedAt u;
                 UpdatedAt := UpdatedAt u; DeletedAt := DeletedAt u |}
      end
    else inr u in
  match hashed with
  | inl err => (Some err, u)
  | inr u1 =>
      if bool_decide (Role u1 = "")
      then (None, {| ID := ID u1; Email := Email u1; Password := Password u1;
                     FirstName := FirstName u1; LastName := LastName u1;
                     Role := RoleUser; IsActive := IsActive u1;
                     CreatedAt := CreatedAt u1; UpdatedAt := UpdatedAt u1;
                     DeletedAt := DeletedAt u1 |})
      else (None, u1)
  end.

(** [func (u *User) BeforeUpdate(tx *gorm.DB) (err error)];
    [changedPassword] is [tx.Statement.Changed("Password")].  The
    slices [u.Password[:4]] are only reached when the password has 60
    bytes or more. *)
Definition BeforeUpdate (changedPassword : bool) (u : User) : option error * User :=
  if changedPassword && bool_decide (Password u ≠ "") then
    if bool_decide (String.length (Password u) < 60)%nat
       || (bool_decide (String.substring 0 4 (Password u) ≠ "$2a$")
           && bool_decide (String.substring 0 4 (Password u) ≠ "$2b$")
           && bool_decide (String.substring 0 4 (Password u) ≠ "$2x$")
           && bool_decide (String.substring 0 4 (Password u) ≠ "$2y$"))
    then
      match GenerateFromPassword (Password u) with
      | inl err => (Some err, u)
      | inr hashedPassword =>
          (None, {| ID := ID u; Email := Email u; Password := hashedPassword;
                    FirstName := FirstName u; LastName := LastName u; Role := Role u;
                    IsActive := IsActive u; CreatedAt := CreatedAt u;
                    UpdatedAt := UpdatedAt u; DeletedAt := DeletedAt u |})
      end
    else (None, u)
  else (None, u).

End Hooks.

Section Password.

(** [bcrypt.CompareHashAndPassword(hashedPassword, password)] *)
Variable CompareHashAndPassword : string → string → option error.

(** [func (u *User) CheckPassword(password string) bool] *)
Definition CheckPassword (u : User) (password : string) : bool :=
  bool_decide (CompareHashAndPassword (Password u) password = None).

End Password.

(** [func (u *User) GetFullName() string] *)
Definition GetFullName (u : User) : string := FirstName u +:+ " " +:+ LastName u.

(** [func (u *User) IsAdmin() bool], [IsEditor], [IsUser] *)
Definition IsAdmin (u : User) : bool := bool_decide (Role u = RoleAdmin).
Definition IsEditor (u : User) : bool := bool_decide (Role u = RoleEditor).
Definition IsUser (u : User) : bool := bool_decide (Role u = RoleUser).

End models.

(** ** Package versions: step 003_seed_admin_user *)

(** Table [users]: its rows and the next value of its key sequence. *)
Record UsersTable : Type := {
  user_rows : list models.User;
  user_next_id : nat
}.

(** The application's part of the database, as far as step 003 reads
    and writes it; [None] means that table [users] does not exist. *)
Record AppStore : Type := {
  users_table : option UsersTable
}.

Section Versions.

Variable GenerateFromPassword : string → error + string.

Definition with_users (d : DB AppStore) (t : UsersTable) : DB AppStore :=
  {| migrations_table := migrations_table d;
     store := {| users_table := Some t |} |}.

(** [tx.Model(&models.User{}).Where("email = ?", email).Count(&count)];
    rows deleted softly are not counted. *)
Definition Count_where_email (email : string) (d : DB AppStore) : error + Z :=
  match users_table (store d) with
  | None => inl (ErrUndefinedTable "users")
  | Some t =>
      inr (Z.of_nat (length (filter (λ u, models.Email u = email ∧ models.DeletedAt u = None)
                                    (user_rows t))))
  end.

(** [tx.Create(&adminUser)]: the hook runs, then the row is inserted
    unless the unique index on [email] refuses it. *)
Definition Create_user (u : models.User) (d : DB AppStore) : option error * DB AppStore :=
  match models.BeforeCreate GenerateFromPassword u with
  | (Some err, _) => (Some err, d)
  | (None, u1) =>
      match users_table (store d) with
      | None => (Some (ErrUndefinedTable "users"), d)
      | Some t =>
          if bool_decide (models.Email u1 ∈ models.Email <$> user_rows t)
          then (Some (ErrUniqueViolation "idx_users_email"), d)
          else
            let row := {| models.ID := user_next_id t; models.Email := models.Email u1;
                          models.Password := models.Password u1;
                          models.FirstName := models.FirstName u1;
                          models.LastName := models.LastName u1;
                          models.Role := models.Role u1;
                          models.IsActive := models.IsActive u1;
                          models.CreatedAt := models.CreatedAt u1;
                          models.UpdatedAt := models.UpdatedAt u1;
                          models.DeletedAt := models.DeletedAt u1 |} in
            (None, with_users d {| user_rows := user_rows t ++ [row];
                                   user_next_id := S (user_next_id t) |})
      end
  end.

(** [tx.Where("email = ?", email).Delete(&models.User{})]: the rows
    found get their [deleted_at] set. *)
Definition Delete_where_email (email : string) (deletedAt : Time) (d : DB AppStore)
  : option error * DB AppStore :=
  match users_table (store d) with
  | None => (Some (ErrUndefinedTable "users"), d)
  | Some t =>
      let mark (u : models.User) :=
        if bool_decide (models.Email u = email ∧ models.DeletedAt u = None)
        then {| models.ID := models.ID u; models.Email := models.Email u;
                models.Password := models.Password u;
                models.FirstName := models.FirstName u;
                models.LastName := models.LastName u;
                models.Role := models.Role u;
                models.IsActive := models.IsActive u;
                models.CreatedAt := models.CreatedAt u;
                models.UpdatedAt := models.UpdatedAt u;
                models.DeletedAt := Some deletedAt |}
        else u in
      (None, with_users d {| user_rows := mark <$> user_rows t;
                             user_next_id := user_next_id t |})
  end.

(** [func Migration003SeedAdminUser() MigrationStep] *)
Definition Migration003SeedAdminUser : MigrationStep AppStore :=
  {| step_Version := "003_seed_admin_user";
     step_Description := "Seed initial admin user";
     step_Up := λ clk tx,
       match Count_where_email models.RoleAdmin tx with
       | inl err => (Some err, tx, 0%nat)
       | inr count =>
           if bool_decide (count > 0) then (None, tx, 0%nat)
           else
             let adminUser :=
               {| models.ID := 0;
                  models.Email := "admin@company.com";
                  models.Password := "Admin123#";
                  models.FirstName := "John";
                  models.LastName := "Doe";
                  models.Role := models.RoleAdmin;
                  models.IsActive := true;
                  models.CreatedAt := clk 0%nat;
                  models.UpdatedAt := clk 1%nat;
                  models.DeletedAt := None |} in
             let '(err, tx1) := Create_user adminUser tx in
             (err, tx1, 2%nat)
       end;
     step_Down := λ clk tx,
       let '(err, tx1) := Delete_where_email "admin@company.com" (clk 0%nat) tx in
       (err, tx1, 1%nat) |}.

(** [func Migration001CreateUsersTable() MigrationStep]:
    [tx.AutoMigrate(&models.User{})] creates table [users] unless it
    exists, [tx.Migrator().DropTable(&models.User{})] drops it if it
    exists. *)
Definition Migration001CreateUsersTable : MigrationStep AppStore :=
  {| step_Version := "001_create_users_table";
     step_Description := "Create users table";
     step_Up := λ clk tx,
       match users_table (store tx) with
       | Some _ => (None, tx, 0%nat)
       | None => (None, with_users tx {| user_rows := []; user_next_id := 1 |}, 0%nat)
       end;
     step_Down := λ clk tx,
       (None, {| migrations_table := migrations_table tx;
                 store := {| users_table := None |} |}, 0%nat) |}.

End Versions.

(** ** Vocabulary of the properties *)

Section Vocabulary.

Context {Store : Type}.

(** The records of the Ledger; none when the table is missing. *)
Definition ledger_rows (w : World Store) : list Migration :=
  from_option rows [] (migrations_table (db w)).

(** The Ledger is the Migrator's: a step closure leaves table
    [migrations] as it found it. *)
Definition preserves_ledger (a : Action Store) : Prop :=
  ∀ clk d, migrations_table (a clk d).1.2 = migrations_table d.

Definition ledger_safe (s : MigrationStep Store) : Prop :=
  preserves_ledger (step_Up s) ∧ preserves_ledger (step_Down s).

(** The world once [Initialize] has run. *)
Definition initialized (w : World Store) : World Store :=
  {| db := with_table (db w) (Some (default empty_table (migrations_table (db w))));
     ticks := ticks w |}.

(** The steps [Up] has to run, given the lookup map it built. *)
Definition pending (executedMap : gmap string bool) (ms : list (MigrationStep Store))
  : list (MigrationStep Store) :=
  filter (λ s, index_bool executedMap (step_Version s) = false) ms.

(** The steps not recorded in the Ledger of [w]. *)
Definition pending_steps (m : Migrator Store) (w : World Store) : list (MigrationStep Store) :=
  pending (build_executedMap (ledger_rows w)) (migrations m).

(** The trace of running the forward actions of [ss] in order. *)
Definition calls_up (ss : list (MigrationStep Store)) : list Event :=
  (λ s, CallUp (step_Version s)) <$> ss.



(** A record none is more recent than. *)
Definition most_recent (rs : list Migration) (r : Migration) : Prop :=
  r ∈ rs ∧ ∀ x, x ∈ rs → ExecutedAt x ≤ ExecutedAt r.

(** The table obeys its primary key: no two rows share an ID. *)
Definition primary_key_ok (t : MigrationsTable) : Prop :=
  NoDup (ID <$> rows t).



Definition clock_strict (now : nat → Time) : Prop :=
  ∀ i j, (i < j)%nat → now i < now j.

(** The table obeys its constraints: IDs distinct and below the
    sequence, versions distinct. *)
Definition ledger_wf (t : MigrationsTable) : Prop :=
  NoDup (ID <$> rows t) ∧ NoDup (Version <$> rows t) ∧
  Forall (λ r, ID r < next_id t)%nat (rows t).

Definition ledger_ok (w : World Store) : Prop :=
  ∀ t, migrations_table (db w) = Some t → ledger_wf t.

(** The rows of [users] that are not deleted softly. *)
Definition live_users (t : UsersTable) : list models.User :=
  filter (λ u, models.DeletedAt u = None) (user_rows t).

(** What is asked of bcrypt: a hash is accepted for the password it was
    made from. *)
Definition bcrypt_accepts (GenerateFromPassword : string → error + string)
           (CompareHashAndPassword : string → string → option error) : Prop :=
  ∀ password hashed,
    GenerateFromPassword password = inr hashed →
    CompareHashAndPassword hashed password = None.

End Vocabulary.

(** ** A small instance

    A store that is the list of the schema objects created, steps that
    add and drop one object each, a step whose forward action writes
    and then fails, and a clock that advances by one per reading. *)

Module Example.

Definition Objects : Type := list string.

Definition create_object (name : string) : Action Objects :=
  λ clk d, (None, {| migrations_table := migrations_table d;
                     store := store d ++ [name] |}, 0%nat).

Definition drop_object (name : string) : Action Objects :=
  λ clk d, (None, {| migrations_table := migrations_table d;
                     store := filter (λ x, x ≠ name) (store d) |}, 0%nat).

Definition write_then_fail (name msg : string) : Action Objects :=
  λ clk d, (Some (errorString msg),
            {| migrations_table := migrations_table d;
               store := store d ++ [name] |}, 1%nat).

Definition step001 : MigrationStep Objects :=
  {| step_Version := "001_create_users_table";
     step_Description := "Create users table";
     step_Up := create_object "users";
     step_Down := drop_object "users" |}.

Definition step002 : MigrationStep Objects :=
  {| step_Version := "002_add_user_indexes";
     step_Description := "Add indexes to users table";
     step_Up := create_object "idx_users_email";
     step_Down := drop_object "idx_users_email" |}.

Definition step003 : MigrationStep Objects :=
  {| step_Version := "003_seed_admin_user";
     step_Description := "Seed initial admin user";
     step_Up := create_object "admin";
     step_Down := drop_object "admin" |}.

(** Step 002 with a forward action that fails half way. *)
Definition step002_broken : MigrationStep Objects :=
  {| step_Version := "002_add_user_indexes";
     step_Description := "Add indexes to users table";
     step_Up := write_then_fail "idx_users_email" "syntax error";
     step_Down := drop_object "idx_users_email" |}.

Definition registry : Migrator Objects :=
  RegisterMigrations step001 step002 step003.

Definition registry_broken : Migrator Objects :=
  RegisterMigrations step001 step002_broken step003.

Definition clock (i : nat) : Time := 1000 + Z.of_nat i.

Definition layout (t : Time) : string := pretty t.

(** A database in which no migration ever ran. *)
Definition fresh : World Objects :=
  {| db := {| migrations_table := None; store := [] |}; ticks := 0 |}.

(** A database in which step 003 alone is recorded. *)
Definition only_003 : World Objects :=
  {| db := {| migrations_table :=
                Some {| rows := [{| ID := 1; Version := "003_seed_admin_user";
                                    Description := "Seed initial admin user";
                                    ExecutedAt := 500 |}];
                        next_id := 2 |};
              store := ["admin"] |};
     ticks := 0 |}.

(** A Ledger with a record of a version that is not registered,
    older than the record of step 001. *)
Definition with_orphan : World Objects :=
  {| db := {| migrations_table :=
                Some {| rows := [{| ID := 1; Version := "000_legacy";
                                    Description := "Removed from the registry";
                                    ExecutedAt := 400 |};
                                 {| ID := 2; Version := "001_create_users_table";
                                    Description := "Create users table";
                                    ExecutedAt := 500 |}];
                        next_id := 3 |};
              store := ["users"] |};
     ticks := 0 |}.



Definition reset_flags : Flags :=
  {| upCmd := false; downCmd := false; statusCmd := false; resetCmd := true;
     createCmd := "" |}.


(** A hash function for the instance of step 003. *)
Definition hash (password : string) : error + string := inr ("$2a$10$" +:+ password).

(** The comparison that goes with [hash]. *)
Definition compare (hashed password : string) : option error :=
  if bool_decide (hashed = "$2a$10$" +:+ password) then None
  else Some (errorString "crypto/bcrypt: hashedPassword is not the hash of the given password").

(** A second step registered under the version of step 001. *)
Definition step001_again : MigrationStep Objects :=
  {| step_Version := "001_create_users_table";
     step_Description := "Create users table, once more";
     step_Up := create_object "users_copy";
     step_Down := drop_object "users_copy" |}.

Definition registry_duplicate : Migrator Objects :=
  Register (Register NewMigrator step001) step001_again.

(** A clock that stands still. *)
Definition frozen (i : nat) : Time := 1000.

(** A user as a request hands it to the repository. *)
Definition new_user : models.User :=
  {| models.ID := 0; models.Email := "jane@company.com";
     models.Password := "secret-password"; models.FirstName := "Jane";
     models.LastName := "Roe"; models.Role := ""; models.IsActive := true;
     models.CreatedAt := 0; models.UpdatedAt := 0; models.DeletedAt := None |}.

(** A stored user, the password being a bcrypt hash of 60 bytes. *)
Definition stored_user : models.User :=
  {| models.ID := 7; models.Email := "jane@company.com";
     models.Password := "$2a$10$N9qo8uLOickgx2ZMRZoMyeIjZAgcfl7p92ldGxad68LJZdL17lhWy";
     models.FirstName := "Jane"; models.LastName := "Roe"; models.Role := "editor";
     models.IsActive := true; models.CreatedAt := 900; models.UpdatedAt := 900;
     models.DeletedAt := None |}.

(** A database without any table. *)
Definition no_tables : DB AppStore :=
  {| migrations_table := None; store := {| users_table := None |} |}.

(** A database in which somebody registered under the address [admin]. *)
Definition address_taken : DB AppStore :=
  {| migrations_table := None;
     store := {| users_table :=
                   Some {| user_rows :=
                             [{| models.ID := 1; models.Email := "admin";
                                 models.Password := "$2a$10$whatever";
                                 models.FirstName := "Eve"; models.LastName := "Roe";
                                 models.Role := "user"; models.IsActive := true;
                                 models.CreatedAt := 900; models.UpdatedAt := 900;
                                 models.DeletedAt := None |}];
                           user_next_id := 2 |} |} |}.

(** The database after step 003 seeded the administrator. *)
Definition seeded : DB AppStore :=
  {| migrations_table := None;
     store := {| users_table :=
                   Some {| user_rows :=
                             [{| models.ID := 1;
                                 models.Email := "admin@company.com";
                                 models.Password := "$2a$10$Admin123#";
                                 models.FirstName := "John";
                                 models.LastName := "Doe";
                                 models.Role := "admin";
                                 models.IsActive := true;
                                 models.CreatedAt := 1000;
                                 models.UpdatedAt := 1001;
                                 models.DeletedAt := None |}];
                           user_next_id := 2 |} |} |}.

(** The same database before the seeding. *)
Definition unseeded : DB AppStore :=
  {| migrations_table := None;
     store := {| users_table := Some {| user_rows := []; user_next_id := 1 |} |} |}.

End Example.

(** ** The lookup maps *)

Section Maps.

Lemma build_executedMap_from (rs : list Migration) (M : gmap string bool) (v : string) :
  index_bool (foldl (λ executedMap migration, <[Version migration := true]> executedMap) M rs) v
  = index_bool M v || bool_decide (v ∈ Version <$> rs).
Proof.
  revert M. induction rs as [|r rs IH]; intros M; simpl.
  - by rewrite orb_false_r.
  - rewrite IH. unfold index_bool.
    destruct (decide (Version r = v)) as [->|Hne].
    + rewrite lookup_insert_eq. simpl.
      rewrite bool_decide_eq_true_2; [by rewrite orb_true_r | left].
    + rewrite lookup_insert_ne by done.
      f_equal. apply bool_decide_ext. rewrite elem_of_cons.
      split; [by right | by intros [?|?]].
Qed.

(** [executedMap[v]] is true exactly for the versions in the Ledger. *)
Lemma index_bool_build (rs : list Migration) (v : string) :
  index_bool (build_executedMap rs) v = bool_decide (v ∈ Version <$> rs).
Proof. unfold build_executedMap. by rewrite build_executedMap_from. Qed.

Lemma index_bool_build_true (rs : list Migration) (v : string) :
  index_bool (build_executedMap rs) v = true ↔ v ∈ Version <$> rs.
Proof. rewrite index_bool_build. apply bool_decide_eq_true. Qed.

Lemma index_bool_build_false (rs : list Migration) (v : string) :
  index_bool (build_executedMap rs) v = false ↔ v ∉ Version <$> rs.
Proof. rewrite index_bool_build. apply bool_decide_eq_false. Qed.



End Maps.

(** ** The loop of [Up] *)

Section UpLoop.

Context {Store : Type}.
Variable now : nat → Time.

Implicit Types (w : World Store) (s : MigrationStep Store)
         (ms : list (MigrationStep Store)) (M : gmap string bool).

(** A step that fails leaves the database as it was. *)
Lemma Up_tx_rollback s w e w1 :
  Transaction (Up_tx now s) w = (Some e, w1) →
  db w1 = db w ∧ (ticks w ≤ ticks w1)%nat.
Proof.
  unfold Transaction, Up_tx, call, time_Now.
  destruct (step_Up s _ _) as [[[e1|] d] n]; simpl.
  - intros [= <- <-]. simpl. split; [done | lia].
  - destruct (Create _ _ _ _) as [[e2|] d2]; simpl; intros [= <-]; try done.
    subst. simpl. split; [done | lia].
Qed.

(** What the failure was: the forward action, or the insert after it. *)
Lemma Up_tx_failure_kind s w e w1 :
  Transaction (Up_tx now s) w = (Some e, w1) →
  (∃ e0 d n, step_Up s (clock_from now (ticks w)) (db w) = (Some e0, d, n)
             ∧ e = Errorf ("failed to execute migration " +:+ step_Version s) e0
             ∧ ticks w1 = (ticks w + n)%nat)
  ∨ (∃ e0 d n, step_Up s (clock_from now (ticks w)) (db w) = (None, d, n)
             ∧ e = Errorf ("failed to record migration " +:+ step_Version s) e0).
Proof.
  unfold Transaction, Up_tx, call, time_Now.
  destruct (step_Up s _ _) as [[[e1|] d] n]; simpl.
  - intros [= <- <-]. left. by exists e1, d, n.
  - destruct (Create _ _ _ _) as [[e2|] d2]; simpl; intros [= <-]; try done.
    right. by exists e2, d, n.
Qed.

(** A step that commits: its action returned nil, its version was not
    in the Ledger, and the Ledger has one more row. *)
Lemma Up_tx_commit s w w1 t :
  preserves_ledger (step_Up s) →
  migrations_table (db w) = Some t →
  Transaction (Up_tx now s) w = (None, w1) →
  ∃ d n,
    step_Up s (clock_from now (ticks w)) (db w) = (None, d, n) ∧
    (step_Version s ∉ Version <$> rows t) ∧
    w1 = {| db := with_table d
                    (Some {| rows := rows t ++
                               [{| ID := next_id t; Version := step_Version s;
                                   Description := step_Description s;
                                   ExecutedAt := now (ticks w + n)%nat |}];
                             next_id := S (next_id t) |});
            ticks := S (ticks w + n) |}.
Proof.
  intros Hsafe Ht. unfold Transaction, Up_tx, call, time_Now.
  specialize (Hsafe (clock_from now (ticks w)) (db w)).
  destruct (step_Up s _ _) as [[[e1|] d] n] eqn:Hact; simpl in *; [done|].
  unfold Create. simpl. rewrite Hsafe, Ht.
  case_bool_decide as Hin; simpl; [done|].
  intros [= <-]. by exists d, n.
Qed.

Lemma Up_loop_app M ms1 ms2 w :
  Up_loop now M (ms1 ++ ms2) w =
  match Up_loop now M ms1 w with
  | (None, w1, tr1) =>
      let '(err, w2, tr2) := Up_loop now M ms2 w1 in (err, w2, tr1 ++ tr2)
  | failed => failed
  end.
Proof.
  revert w. induction ms1 as [|s ms1 IH]; intros w; simpl.
  - by destruct (Up_loop now M ms2 w) as [[??]?].
  - destruct (index_bool M (step_Version s)); [apply IH|].
    destruct (Transaction _ w) as [[e|] w1]; [done|].
    rewrite IH. destruct (Up_loop now M ms1 w1) as [[[e|] w2] tr1]; [done|].
    by destruct (Up_loop now M ms2 w2) as [[??]?].
Qed.

(** Steps whose versions are all in the map are skipped. *)
Lemma Up_loop_skip M ms w :
  Forall (λ s, index_bool M (step_Version s) = true) ms →
  Up_loop now M ms w = (None, w, []).
Proof.
  induction 1 as [|s ms Hs _ IH]; simpl; [done|]. by rewrite Hs.
Qed.

(** Only steps missing from the map are called. *)
Lemma Up_loop_calls_pending M ms w err w' tr v :
  Up_loop now M ms w = (err, w', tr) →
  CallUp v ∈ tr → index_bool M v = false.
Proof.
  revert w tr. induction ms as [|s ms IH]; intros w tr; simpl.
  - intros [= <- <- <-]. by intros ?%elem_of_nil.
  - destruct (index_bool M (step_Version s)) eqn:Hs; [apply IH|].
    destruct (Transaction _ w) as [[e|] w1].
    + intros [= <- <- <-]. by intros [= ->]%list_elem_of_singleton.
    + destruct (Up_loop now M ms w1) as [[e2 w2] tr2] eqn:Hrest.
      intros [= <- <- <-]. intros [[= ->]|Hin]%elem_of_cons; [done|]. by eapply IH.
Qed.

(** A run without error called the forward action of every pending
    step, once each, in registration order. *)
Lemma Up_loop_ok_trace M ms w w' tr :
  Up_loop now M ms w = (None, w', tr) → tr = calls_up (pending M ms).
Proof.
  revert w tr. induction ms as [|s ms IH]; intros w tr; simpl.
  - by intros [= <- <-].
  - unfold pending. rewrite filter_cons.
    destruct (index_bool M (step_Version s)) eqn:Hs.
    + rewrite decide_False by done. apply IH.
    + rewrite decide_True by done.
      destruct (Transaction _ w) as [[e|] w1]; [done|].
      destruct (Up_loop now M ms w1) as [[e2 w2] tr2] eqn:Hrest.
      intros [= -> <- <-]. simpl. f_equal. by eapply IH.
Qed.

(** A run that fails stopped at one step: the steps before it went
    through, that step's transaction failed, and nothing after it was
    tried. *)
Lemma Up_loop_fail_split M ms w e w' tr :
  Up_loop now M ms w = (Some e, w', tr) →
  ∃ before s after w1 e',
    ms = before ++ s :: after ∧
    index_bool M (step_Version s) = false ∧
    Up_loop now M before w = (None, w1, calls_up (pending M before)) ∧
    Transaction (Up_tx now s) w1 = (Some e', w') ∧
    e = Errorf ("failed to run migration " +:+ step_Version s) e' ∧
    tr = calls_up (pending M before) ++ [CallUp (step_Version s)].
Proof.
  revert w tr. induction ms as [|s ms IH]; intros w tr; simpl; [done|].
  destruct (index_bool M (step_Version s)) eqn:Hs.
  - intros (before & s' & after & w1 & e' & -> & Hp & Hb & Htx & -> & ->)%IH.
    exists (s :: before), s', after, w1, e'. simpl. rewrite Hs.
    unfold pending in *. rewrite filter_cons, decide_False by congruence. done.
  - destruct (Transaction _ w) as [[e1|] w1] eqn:Htx.
    + intros [= <- <- <-]. by exists [], s, ms, w, e1.
    + destruct (Up_loop now M ms w1) as [[e2 w2] tr2] eqn:Hrest.
      intros [= -> <- <-].
      apply IH in Hrest as (before & s' & after & w3 & e' & -> & Hp & Hb & Htx' & -> & ->).
      exists (s :: before), s', after, w3, e'. simpl. rewrite Hs, Htx, Hb.
      unfold pending in *. rewrite filter_cons, decide_True by done. done.
Qed.

End UpLoop.

(** ** [Up] and the Ledger *)

Section UpLedger.

Context {Store : Type}.
Variable now : nat → Time.

Implicit Types (w : World Store) (s : MigrationStep Store)
         (ms : list (MigrationStep Store)) (M : gmap string bool)
         (m : Migrator Store).

Lemma initialized_id w t : migrations_table (db w) = Some t → initialized w = w.
Proof.
  destruct w as [[tb st] tk]. simpl. intros ->. reflexivity.
Qed.

Lemma ledger_rows_initialized w : ledger_rows (initialized w) = ledger_rows w.
Proof. unfold ledger_rows. simpl. by destruct (migrations_table (db w)). Qed.

Lemma rows_default_table w :
  rows (default empty_table (migrations_table (db w))) = ledger_rows w.
Proof. unfold ledger_rows. by destruct (migrations_table (db w)). Qed.

Lemma Up_unfold m w :
  Up now m w = Up_loop now (build_executedMap (ledger_rows w)) (migrations m) (initialized w).
Proof.
  unfold Up, Initialize, AutoMigrate, Find, ledger_rows, initialized.
  destruct w as [[[t|] st] tk]; reflexivity.
Qed.

(** The rows a run without error adds: one per pending step, in
    order, with the step's version and description, fresh IDs, and
    clock readings taken one after the other. *)
Lemma Up_loop_ok_ledger M ms w t w' tr :
  Forall ledger_safe ms →
  migrations_table (db w) = Some t →
  Up_loop now M ms w = (None, w', tr) →
  ∃ news ks,
    migrations_table (db w')
      = Some {| rows := rows t ++ news; next_id := next_id t + length news |} ∧
    Version <$> news = step_Version <$> pending M ms ∧
    Description <$> news = step_Description <$> pending M ms ∧
    ID <$> news = seq (next_id t) (length news) ∧
    ExecutedAt <$> news = now <$> ks ∧
    StronglySorted lt ks ∧
    Forall (λ k, ticks w ≤ k < ticks w')%nat ks ∧
    (ticks w ≤ ticks w')%nat ∧
    NoDup (Version <$> news) ∧
    (∀ v, v ∈ Version <$> news → v ∉ Version <$> rows t).
Proof.
  intros Hsafe. revert w t tr.
  induction Hsafe as [|s ms [Hs _] _ IH]; intros w t tr Ht; simpl.
  - intros [= <- <-]. exists [], []. rewrite Ht, app_nil_r, Nat.add_0_r.
    destruct t. repeat split; try constructor. by intros v ?%elem_of_nil.
  - unfold pending. rewrite filter_cons.
    destruct (index_bool M (step_Version s)) eqn:Hidx.
    { rewrite decide_False by done. by apply IH. }
    rewrite decide_True by done.
    destruct (Transaction _ w) as [[e|] w1] eqn:Htx; [done|].
    destruct (Up_loop now M ms w1) as [[e2 w2] tr2] eqn:Hrest.
    intros [= -> <- <-].
    destruct (Up_tx_commit now s w w1 t Hs Ht Htx) as (d & n & Hact & Hfresh & ->).
    eapply IH in Hrest
        as (news & ks & Htab & Hv & Hd & Hid & Hts & Hsort & Hks & Hle & Hnd & Hnew);
      [|reflexivity].
    simpl in *.
    eexists (_ :: news), ((ticks w + n)%nat :: ks). rewrite Htab.
    repeat split.
    + rewrite <- app_assoc. simpl. do 2 f_equal. lia.
    + simpl. by f_equal.
    + simpl. by f_equal.
    + simpl. by f_equal.
    + simpl. by f_equal.
    + constructor; [done|]. eapply Forall_impl; [exact Hks|]. simpl. lia.
    + constructor; [lia|]. eapply Forall_impl; [exact Hks|]. simpl. lia.
    + lia.
    + simpl. constructor; [|done]. intros Hin. apply Hnew in Hin.
      apply Hin. rewrite fmap_app, elem_of_app. right. simpl. by left.
    + simpl. intros v [->|Hin]%elem_of_cons; [done|].
      apply Hnew in Hin. intros Hc. apply Hin. rewrite fmap_app, elem_of_app. by left.
Qed.

End UpLedger.

(** ** Properties of [Up] and [Reset] *)

Section UpProperties.

Context {Store : Type}.
Variable now : nat → Time.

Implicit Types (w : World Store) (s : MigrationStep Store)
         (ms : list (MigrationStep Store)) (m : Migrator Store).

Lemma pending_versions_recorded ms rs news s :
  Version <$> news = step_Version <$> pending (build_executedMap rs) ms →
  s ∈ ms →
  index_bool (build_executedMap (rs ++ news)) (step_Version s) = true.
Proof.
  intros Hnews Hs. apply index_bool_build_true. rewrite fmap_app, elem_of_app.
  destruct (index_bool (build_executedMap rs) (step_Version s)) eqn:Hidx.
  - left. by apply index_bool_build_true.
  - right. rewrite Hnews. apply list_elem_of_fmap. exists s. split; [done|].
    by apply list_elem_of_filter.
Qed.

(** C3. [Up] is idempotent: after an [Up] that returned nil, with the
    same registered steps (none of which writes the Ledger), a second
    [Up] returns nil, calls no forward action and leaves the world, so
    also the Ledger, exactly as it was. *)
Theorem Up_idempotent m w w1 tr1 :
  Forall ledger_safe (migrations m) →
  Up now m w = (None, w1, tr1) →
  Up now m w1 = (None, w1, []).
Proof.
  intros Hsafe Hup. rewrite Up_unfold in Hup.
  eapply Up_loop_ok_ledger in Hup as (news & ks & Htab & Hv & _); [|done|reflexivity].
  rewrite rows_default_table in Htab.
  rewrite Up_unfold, (initialized_id _ _ Htab).
  apply Up_loop_skip, Forall_forall. intros s Hs.
  unfold ledger_rows at 1. rewrite Htab. simpl.
  by eapply pending_versions_recorded.
Qed.

Lemma pending_all_of_empty ms : pending (build_executedMap []) ms = ms.
Proof.
  unfold pending. induction ms as [|s ms IH]; [done|].
  rewrite filter_cons, decide_True; [by rewrite IH|].
  apply index_bool_build_false, not_elem_of_nil.
Qed.



Lemma Up_loop_succeeds M ms w t :
  Forall ledger_safe ms →
  Forall (λ s, ∀ clk d, (step_Up s clk d).1.1 = None) ms →
  migrations_table (db w) = Some t →
  NoDup (step_Version <$> pending M ms) →
  (∀ s, s ∈ pending M ms → step_Version s ∉ Version <$> rows t) →
  ∃ w' tr, Up_loop now M ms w = (None, w', tr).
Proof.
  intros Hsafe Hok. revert w t.
  induction ms as [|s ms IH]; intros w t Ht Hnd Hfresh; simpl; [by eauto|].
  apply Forall_cons in Hsafe as [[Hs _] Hsafe]. apply Forall_cons in Hok as [Hsok Hok].
  unfold pending in Hnd, Hfresh. rewrite filter_cons in Hnd, Hfresh.
  destruct (index_bool M (step_Version s)) eqn:Hidx.
  { rewrite decide_False in Hnd, Hfresh by done. by eapply IH. }
  rewrite decide_True in Hnd, Hfresh by done.
  apply NoDup_cons in Hnd as [Hhead Hnd].
  unfold Transaction, Up_tx, call, time_Now.
  specialize (Hsok (clock_from now (ticks w)) (db w)).
  specialize (Hs (clock_from now (ticks w)) (db w)).
  destruct (step_Up s _ _) as [[e d] n]. simpl in *. subst e.
  unfold Create. rewrite Hs, Ht.
  rewrite bool_decide_eq_false_2 by (apply Hfresh; by left). simpl.
  edestruct (IH Hsafe Hok) as (w' & tr & ->); [reflexivity|done| |by eauto].
  simpl. intros s' Hs'. rewrite fmap_app, not_elem_of_app. split.
  - apply Hfresh. by right.
  - simpl. intros Heq%list_elem_of_singleton. apply Hhead.
    rewrite <- Heq. apply list_elem_of_fmap. by exists s'.
Qed.

(** With distinct versions, an empty Ledger and forward actions that
    return nil, [Up] returns nil. *)
Lemma Up_on_empty_ledger_succeeds m w :
  NoDup (step_Version <$> migrations m) →
  Forall ledger_safe (migrations m) →
  Forall (λ s, ∀ clk d, (step_Up s clk d).1.1 = None) (migrations m) →
  ledger_rows w = [] →
  ∃ w' tr, Up now m w = (None, w', tr).
Proof.
  intros Hnd Hsafe Hok Hempty. rewrite Up_unfold, Hempty.
  eapply Up_loop_succeeds; try done.
  - by rewrite pending_all_of_empty.
  - intros s _. simpl. rewrite rows_default_table, Hempty. apply not_elem_of_nil.
Qed.

Lemma pending_app M ms1 ms2 : pending M (ms1 ++ ms2) = pending M ms1 ++ pending M ms2.
Proof. apply filter_app. Qed.

Lemma pending_subset M ms s : s ∈ pending M ms → s ∈ ms.
Proof. by intros [_ ?]%list_elem_of_filter. Qed.

(** C1. When, during [Up], the forward action of a pending step
    fails, the steps registered before it having gone through
    (versions being distinct and no step writing the Ledger): [Up]
    returns the error; the pending steps before it, k-1 of them, were
    called in order and their records, and only theirs, were added;
    the database is the one those steps left, without what the failing
    action wrote and without a record of its version; no later step
    was called.  Another [Up] calls that step first and none of the
    steps already recorded. *)
Theorem Up_forward_failure m w before s after w1 tr1 e d n :
  NoDup (step_Version <$> migrations m) →
  Forall ledger_safe (migrations m) →
  migrations m = before ++ s :: after →
  step_Version s ∉ Version <$> ledger_rows w →
  Up now {| migrations := before |} w = (None, w1, tr1) →
  step_Up s (clock_from now (ticks w1)) (db w1) = (Some e, d, n) →
  let committed := pending (build_executedMap (ledger_rows w)) before in
  let v := step_Version s in
  ∃ w' news,
    Up now m w
      = (Some (Errorf ("failed to run migration " +:+ v)
                 (Errorf ("failed to execute migration " +:+ v) e)),
         w', tr1 ++ [CallUp v]) ∧
    tr1 = calls_up committed ∧
    pending_steps m w
      = committed ++ s :: pending (build_executedMap (ledger_rows w)) after ∧
    db w' = db w1 ∧
    ledger_rows w' = ledger_rows w ++ news ∧
    length news = length committed ∧
    Version <$> news = step_Version <$> committed ∧
    Description <$> news = step_Description <$> committed ∧
    (v ∉ Version <$> ledger_rows w') ∧
    ∀ r2 w2 tr2, Up now m w' = (r2, w2, tr2) →
      (∃ tr2', tr2 = CallUp v :: tr2') ∧
      ∀ s', s' ∈ committed → CallUp (step_Version s') ∉ tr2.
Proof.
  intros Hnd Hsafe Hms Hpend Hbefore Hact committed v. subst committed v.
  rewrite Up_unfold in Hbefore. simpl in Hbefore.
  apply index_bool_build_false in Hpend.
  pose proof (Up_loop_ok_trace _ _ _ _ _ _ Hbefore) as Htr.
  exists {| db := db w1; ticks := (ticks w1 + n)%nat |}.
  rewrite Hms in Hsafe, Hnd.
  apply Forall_app in Hsafe as [Hsafe_b _].
  pose proof Hbefore as Hled.
  eapply Up_loop_ok_ledger in Hled
      as (news & ks & Htab & Hver & Hdesc & _); [|done|reflexivity].
  rewrite rows_default_table in Htab. exists news.
  set (w' := {| db := db w1; ticks := (ticks w1 + n)%nat |}).
  assert (Hrows : ledger_rows w' = ledger_rows w ++ news).
  { unfold ledger_rows at 1. simpl. by rewrite Htab. }
  assert (Hfresh : step_Version s ∉ Version <$> ledger_rows w').
  { rewrite Hrows, fmap_app, not_elem_of_app. split.
    - by apply index_bool_build_false.
    - rewrite Hver. intros (s' & Heq & Hin%pending_subset)%list_elem_of_fmap.
      rewrite fmap_app in Hnd. apply NoDup_app in Hnd as (_ & Hdisj & _).
      apply (Hdisj (step_Version s)); [|by left].
      rewrite Heq. apply list_elem_of_fmap. by exists s'. }
  split_and!; try done.
  - rewrite Up_unfold, Hms, Up_loop_app, Hbefore. simpl. rewrite Hpend.
    unfold Transaction, Up_tx, call. by rewrite Hact.
  - unfold pending_steps. rewrite Hms, pending_app. f_equal.
    unfold pending at 1. by rewrite filter_cons, decide_True.
  - by rewrite <- (length_fmap Version), Hver, length_fmap.
  - intros r2 w2 tr2. rewrite Up_unfold, Hms, (initialized_id w' _ Htab).
    intros Hup2. split.
    + revert Hup2. rewrite Up_loop_app, Up_loop_skip.
      * simpl. apply index_bool_build_false in Hfresh. rewrite Hfresh.
        destruct (Transaction _ w') as [[e2|] w3].
        -- intros [= <- <- <-]. by eexists.
        -- destruct (Up_loop _ _ after w3) as [[e3 w4] tr4].
           intros [= <- <- <-]. by eexists.
      * apply Forall_forall. intros s' Hs'. rewrite Hrows.
        by eapply pending_versions_recorded.
    + intros s' Hs' Hcall.
      eapply Up_loop_calls_pending in Hcall; [|exact Hup2].
      apply index_bool_build_false in Hcall. apply Hcall.
      rewrite Hrows, fmap_app, elem_of_app. right. rewrite Hver.
      apply list_elem_of_fmap. by exists s'.
Qed.

End UpProperties.

(** ** [Down] *)

Section DownProperties.

Context {Store : Type}.
Variable now : nat → Time.

Implicit Types (w : World Store) (s : MigrationStep Store)
         (ms : list (MigrationStep Store)) (m : Migrator Store)
         (r : Migration) (rs : list Migration).

(** *** The record [First] returns *)

Lemma first_row_None rs : first_row rs = None ↔ rs = [].
Proof.
  destruct rs as [|r rs]; simpl; [done|].
  split; [|done]. by destruct (first_row rs).
Qed.

Lemma sorts_before_le a b : sorts_before a b = true → ExecutedAt b ≤ ExecutedAt a.
Proof.
  unfold sorts_before. intros [H|[H _]%andb_prop]%orb_prop.
  - apply bool_decide_eq_true in H. lia.
  - apply bool_decide_eq_true in H. lia.
Qed.

Lemma not_sorts_before_le a b : sorts_before a b = false → ExecutedAt a ≤ ExecutedAt b.
Proof.
  unfold sorts_before. intros [H _]%orb_false_elim.
  apply bool_decide_eq_false in H. lia.
Qed.

(** It is a record of the table, and none is more recent. *)
Lemma first_row_most_recent rs r : first_row rs = Some r → most_recent rs r.
Proof.
  revert r. induction rs as [|x rs IH]; intros r; simpl; [done|].
  destruct (first_row rs) as [b|] eqn:Hb.
  - destruct (IH b eq_refl) as [Hin Hmax].
    destruct (sorts_before b x) eqn:Hsb; intros [= <-]; split.
    + by right.
    + intros y [->|Hy]%elem_of_cons; [by apply sorts_before_le | by apply Hmax].
    + by left.
    + intros y [->|Hy]%elem_of_cons; [done|].
      apply not_sorts_before_le in Hsb. specialize (Hmax y Hy). lia.
  - apply first_row_None in Hb as ->. intros [= <-]. split; [by left|].
    by intros y ->%list_elem_of_singleton.
Qed.

(** When the last row is strictly the most recent, that is the one. *)
Lemma first_row_snoc rs r :
  Forall (λ x, ExecutedAt x < ExecutedAt r) rs → first_row (rs ++ [r]) = Some r.
Proof.
  intros Hlt. destruct (first_row (rs ++ [r])) as [b|] eqn:Hb.
  - apply first_row_most_recent in Hb as [Hin Hmax].
    apply elem_of_app in Hin as [Hin|Hin%list_elem_of_singleton]; [|by subst].
    rewrite Forall_forall in Hlt. specialize (Hlt b Hin).
    specialize (Hmax r). rewrite elem_of_app, list_elem_of_singleton in Hmax.
    specialize (Hmax (or_intror eq_refl)). lia.
  - apply first_row_None in Hb. by destruct rs.
Qed.

(** *** The step [Down] finds *)

Lemma find_step_Some ms v s :
  find_step ms v = Some s → s ∈ ms ∧ step_Version s = v.
Proof.
  unfold find_step. destruct (list_find _ ms) as [[i x]|] eqn:Hfind; [|done].
  intros [= <-]. apply list_find_Some in Hfind as (Hi & Hv & _).
  split; [by eapply list_elem_of_lookup_2 | done].
Qed.

Lemma find_step_None ms v :
  find_step ms v = None ↔ v ∉ step_Version <$> ms.
Proof.
  unfold find_step. rewrite fmap_None, list_find_None, Forall_forall.
  rewrite list_elem_of_fmap. split.
  - intros Hall (s & -> & Hs). by apply (Hall s).
  - intros Hnone s Hs Hv. apply Hnone. by exists s.
Qed.

Lemma find_step_NoDup ms s :
  NoDup (step_Version <$> ms) → s ∈ ms → find_step ms (step_Version s) = Some s.
Proof.
  intros Hnd Hs. destruct (find_step ms (step_Version s)) as [s'|] eqn:Hf.
  - apply find_step_Some in Hf as [Hs' Hv]. f_equal.
    apply list_elem_of_lookup in Hs as [i Hi]. apply list_elem_of_lookup in Hs' as [j Hj].
    assert (i = j) as ->; [|congruence].
    eapply NoDup_lookup; [exact Hnd| |];
      rewrite list_lookup_fmap; [by rewrite Hi | rewrite Hj; simpl; by rewrite Hv].
  - apply find_step_None in Hf. destruct Hf. apply list_elem_of_fmap. by exists s.
Qed.

(** *** The delete *)

Lemma filter_all {A} (P : A → Prop) `{!∀ x, Decision (P x)} (l : list A) :
  Forall P l → filter P l = l.
Proof.
  induction 1 as [|x l Hx _ IH]; [done|]. by rewrite filter_cons_True, IH.
Qed.

Lemma filter_other_ids rs1 r rs2 :
  NoDup (ID <$> rs1 ++ r :: rs2) →
  filter (λ x, ID x ≠ ID r) (rs1 ++ r :: rs2) = rs1 ++ rs2.
Proof.
  rewrite fmap_app, fmap_cons. intros (Hnd1 & Hdisj & [Hr Hnd2]%NoDup_cons)%NoDup_app.
  rewrite filter_app, filter_cons, decide_False by (intros H; by apply H).
  f_equal; apply filter_all, Forall_forall; intros x Hx Heq.
  - apply (Hdisj (ID x)); [apply list_elem_of_fmap; by exists x|]. rewrite Heq. by left.
  - apply Hr. rewrite <- Heq. apply list_elem_of_fmap. by exists x.
Qed.

(** *** The transaction of [Down] *)

Lemma Down_tx_rollback s r w e w1 :
  Transaction (Down_tx now s r) w = (Some e, w1) → db w1 = db w.
Proof.
  unfold Transaction. destruct (Down_tx now s r w) as [[e1|] w2]; [|done].
  by intros [= <- <-].
Qed.

Lemma Down_tx_commit s r w w1 t :
  preserves_ledger (step_Down s) →
  migrations_table (db w) = Some t →
  Transaction (Down_tx now s r) w = (None, w1) →
  ∃ d n,
    step_Down s (clock_from now (ticks w)) (db w) = (None, d, n) ∧
    w1 = {| db := with_table d
                    (Some {| rows := filter (λ x, ID x ≠ ID r) (rows t);
                             next_id := next_id t |});
            ticks := (ticks w + n)%nat |}.
Proof.
  intros Hsafe Ht. unfold Transaction, Down_tx, call.
  specialize (Hsafe (clock_from now (ticks w)) (db w)).
  destruct (step_Down s _ _) as [[[e1|] d] n] eqn:Hact; simpl in *; [done|].
  unfold Delete. case_bool_decide; simpl; [done|].
  rewrite Hsafe, Ht. simpl. intros [= <-]. by exists d, n.
Qed.

(** *** The cases of [Down] *)

Lemma Down_no_table m w :
  migrations_table (db w) = None →
  Down now m w
    = (Some (Errorf "failed to fetch last migration" (ErrUndefinedTable "migrations")), w, []).
Proof. unfold Down, First_order_executed_at_desc. by intros ->. Qed.


Lemma Down_orphan m w t r :
  migrations_table (db w) = Some t →
  first_row (rows t) = Some r →
  find_step (migrations m) (Version r) = None →
  Down now m w
    = (Some (errorString ("migration step not found for version: " +:+ Version r)), w, []).
Proof. unfold Down, First_order_executed_at_desc. by intros -> -> ->. Qed.

Lemma Down_found m w t r s :
  migrations_table (db w) = Some t →
  first_row (rows t) = Some r →
  find_step (migrations m) (Version r) = Some s →
  Down now m w =
  match Transaction (Down_tx now s r) w with
  | (Some e, w1) =>
      (Some (Errorf ("failed to roll back migration " +:+ step_Version s) e),
       w1, [CallDown (step_Version s)])
  | (None, w1) => (None, w1, [CallDown (step_Version s)])
  end.
Proof.
  unfold Down, First_order_executed_at_desc. intros -> -> ->.
  by destruct (Transaction _ w) as [[?|] ?].
Qed.



(** A [Down] that returns nil on a Ledger with records: it took a
    most recent record, called the backward action of the first step
    of that version, once, and deleted that record and no other. *)
Lemma Down_commit m w t w' tr :
  migrations_table (db w) = Some t →
  rows t ≠ [] →
  primary_key_ok t →
  Forall ledger_safe (migrations m) →
  Down now m w = (None, w', tr) →
  ∃ r s before after d n,
    most_recent (rows t) r ∧
    find_step (migrations m) (Version r) = Some s ∧
    tr = [CallDown (step_Version s)] ∧
    step_Down s (clock_from now (ticks w)) (db w) = (None, d, n) ∧
    store (db w') = store d ∧
    rows t = before ++ r :: after ∧
    ledger_rows w' = before ++ after.
Proof.
  intros Ht Hne Hnd Hsafe Hdown.
  destruct (first_row (rows t)) as [r|] eqn:Hfirst;
    [|by apply first_row_None in Hfirst].
  destruct (find_step (migrations m) (Version r)) as [s|] eqn:Hfind;
    [|by rewrite (Down_orphan _ _ _ _ Ht Hfirst Hfind) in Hdown].
  rewrite (Down_found _ _ _ _ _ Ht Hfirst Hfind) in Hdown.
  destruct (Transaction _ w) as [[e|] w1] eqn:Htx; [done|].
  injection Hdown as <- <-.
  pose proof (find_step_Some _ _ _ Hfind) as [Hs Hv].
  rewrite Forall_forall in Hsafe. destruct (Hsafe s Hs) as [_ Hsd].
  destruct (Down_tx_commit _ _ _ _ _ Hsd Ht Htx) as (d & n & Hact & ->).
  pose proof (first_row_most_recent _ _ Hfirst) as Hrecent.
  destruct (list_elem_of_split _ _ (proj1 Hrecent)) as (before & after & Hrows).
  exists r, s, before, after, d, n. split_and!; try done.
  unfold primary_key_ok in Hnd. unfold ledger_rows. simpl.
  rewrite Hrows in *. by apply filter_other_ids.
Qed.

(** A [Down] that returns an error has changed nothing in the
    database: neither the step's effect nor the record is gone. *)
Lemma Down_failure_atomic m w e w' tr :
  Down now m w = (Some e, w', tr) → db w' = db w.
Proof.
  unfold Down, First_order_executed_at_desc.
  destruct (migrations_table (db w)) as [t|]; [|by intros [= <- <- <-]].
  destruct (first_row (rows t)) as [r|]; [|done].
  destruct (find_step _ _) as [s|]; [|by intros [= <- <- <-]].
  destruct (Transaction _ w) as [[e1|] w1] eqn:Htx; [|done].
  intros [= <- <- <-]. by eapply Down_tx_rollback.
Qed.

Lemma now_sorted_strict (ks : list nat) :
  clock_strict now → StronglySorted lt ks → StronglySorted Z.lt (now <$> ks).
Proof. intros Hstrict. apply StronglySorted_fmap. intros i j. apply Hstrict. Qed.

(** After an [Up] that returned nil on an empty Ledger, with distinct
    versions and a clock that moves between readings, the Ledger ends
    with the record of the step registered last, and a [Down] that
    returns nil called that step's backward action and removed that
    record. *)
Lemma Down_after_Up m w w1 tr1 init last :
  clock_strict now →
  NoDup (step_Version <$> migrations m) →
  Forall ledger_safe (migrations m) →
  ledger_rows w = [] →
  migrations m = init ++ [last] →
  Up now m w = (None, w1, tr1) →
  ∃ kept r,
    ledger_rows w1 = kept ++ [r] ∧
    Version r = step_Version last ∧
    Version <$> kept = step_Version <$> init ∧
    ∀ w2 tr2, Down now m w1 = (None, w2, tr2) →
      tr2 = [CallDown (step_Version last)] ∧ ledger_rows w2 = kept.
Proof.
  intros Hstrict Hnd Hsafe Hempty Hms Hup. rewrite Up_unfold, Hempty in Hup.
  eapply Up_loop_ok_ledger in Hup
      as (news & ks & Htab & Hv & _ & Hid & Hts & Hsort & _); [|done|reflexivity].
  rewrite pending_all_of_empty, Hms, fmap_app in Hv.
  rewrite rows_default_table, Hempty in Htab. simpl in Htab.
  apply fmap_app_inv in Hv as (kept & l2 & Hkept & Hl2 & ->).
  symmetry in Hl2. apply fmap_cons_inv in Hl2 as (r & l3 & Hr & Hl3 & ->).
  symmetry in Hl3. apply fmap_nil_inv in Hl3 as ->.
  exists kept, r. split_and!; [by unfold ledger_rows; rewrite Htab|done|done|].
  intros w2 tr2 Hdown.
  assert (Hfirst : first_row (kept ++ [r]) = Some r).
  { apply first_row_snoc, Forall_forall. intros x Hx.
    apply now_sorted_strict in Hsort; [|done]. rewrite <- Hts, fmap_app in Hsort.
    eapply (StronglySorted_app_1_elem_of _ _ _ _ _ Hsort).
    - apply list_elem_of_fmap. by exists x.
    - simpl. by left. }
  assert (Hfind : find_step (migrations m) (Version r) = Some last).
  { rewrite <- Hr. apply find_step_NoDup; [done|].
    rewrite Hms, elem_of_app, list_elem_of_singleton. by right. }
  erewrite Down_found in Hdown; [|exact Htab|exact Hfirst|exact Hfind].
  destruct (Transaction _ w1) as [[e|] w3] eqn:Htx; [done|].
  injection Hdown as <- <-. split; [done|].
  rewrite Forall_forall in Hsafe. destruct (Hsafe last) as [_ Hsd].
  { rewrite Hms, elem_of_app, list_elem_of_singleton. by right. }
  destruct (Down_tx_commit _ _ _ _ _ Hsd Htab Htx) as (d & n & Hact & ->).
  unfold ledger_rows. simpl. rewrite filter_other_ids, app_nil_r; [done|].
  rewrite Hid. apply NoDup_seq.
Qed.

(** C5 (amended). A [Down] that returns nil on a Ledger with records
    took a most recent record, called the backward action of the
    registered step of its version, once, and deleted that record and
    no other.  A [Down] that returns an error leaves the database as
    it was.  After an [Up] that returned nil on an empty Ledger (with
    distinct versions and a clock that moves between readings) such a
    [Down] removes the record of the step registered last. *)
Theorem Down_rolls_back_most_recent m w :
  Forall ledger_safe (migrations m) →
  (∀ t w' tr,
      migrations_table (db w) = Some t → rows t ≠ [] → primary_key_ok t →
      Down now m w = (None, w', tr) →
      ∃ r s before after d n,
        most_recent (rows t) r ∧
        find_step (migrations m) (Version r) = Some s ∧
        tr = [CallDown (step_Version s)] ∧
        step_Down s (clock_from now (ticks w)) (db w) = (None, d, n) ∧
        store (db w') = store d ∧
        rows t = before ++ r :: after ∧
        ledger_rows w' = before ++ after) ∧
  (∀ e w' tr, Down now m w = (Some e, w', tr) → db w' = db w) ∧
  (∀ w1 tr1 init last,
      clock_strict now →
      NoDup (step_Version <$> migrations m) →
      ledger_rows w = [] →
      migrations m = init ++ [last] →
      Up now m w = (None, w1, tr1) →
      ∃ kept r,
        ledger_rows w1 = kept ++ [r] ∧
        Version r = step_Version last ∧
        Version <$> kept = step_Version <$> init ∧
        ∀ w2 tr2, Down now m w1 = (None, w2, tr2) →
          tr2 = [CallDown (step_Version last)] ∧ ledger_rows w2 = kept).
Proof.
  intros Hsafe. split_and!.
  - intros t w' tr Ht Hne Hpk Hdown. by eapply Down_commit.
  - intros e w' tr. apply Down_failure_atomic.
  - intros w1 tr1 init last Hstrict Hnd Hempty Hms Hup. by eapply Down_after_Up.
Qed.

End DownProperties.

(** ** [Status], [Reset] and the invariant of the Ledger *)

Section EngineProperties.

Context {Store : Type}.
Variable now : nat → Time.
Variable Format : Time → string.

Implicit Types (w : World Store) (s : MigrationStep Store)
         (ms : list (MigrationStep Store)) (m : Migrator Store).




(** *** How [Up] and [Down] change the Ledger *)



Lemma Reset_unfold m w :
  Reset now m w =
  match Up now m {| db := with_table (db w) None; ticks := ticks w |} with
  | (Some e, w1, tr) => (Some (Errorf "failed to re-run migrations" e), w1, tr)
  | (None, w1, tr) => (None, w1, tr)
  end.
Proof. reflexivity. Qed.



End EngineProperties.

(** ** The [reset] command *)

Section CLIProperties.

Context {Store : Type}.
Variable now : nat → Time.
Variable Format : Time → string.

Lemma lower_byte_y (c : Ascii.ascii) :
  lower_byte c = "y"%char ↔ c = "y"%char ∨ c = "Y"%char.
Proof.
  destruct c as [[] [] [] [] [] [] [] []]; vm_compute;
    (split; [intros H; first [discriminate H | by left | by right]
            | intros [H|H]; first [discriminate H | reflexivity]]).
Qed.

(** The answers [main] takes for a yes. *)
Lemma ToLower_y (response : string) :
  ToLower response = "y" ↔ response = "y" ∨ response = "Y".
Proof.
  destruct response as [|c [|c' rest]]; simpl.
  - split; [done | by intros [|]].
  - split.
    + intros [= H]. apply lower_byte_y in H as [-> | ->]; auto.
    + intros [[= ->] | [= ->]]; reflexivity.
  - split; [done | by intros [|]].
Qed.

(** C7 (amended). With [-reset] the one command given: on every
    response other than [y] and [Y] the process exits with code 0 and
    the world is as before, no action called; on [y] and on [Y] (the
    response is compared in lower case) [Reset] runs, and the exit code
    is 0 when it returns nil and 1 otherwise. *)
Theorem main_reset_confirmation (m : Migrator Store) flags response (w : World Store) :
  upCmd flags = false → downCmd flags = false → statusCmd flags = false →
  resetCmd flags = true →
  (response ≠ "y" → response ≠ "Y" →
   main now Format m flags response w = (0%nat, w, [])) ∧
  (response = "y" ∨ response = "Y" →
   main now Format m flags response w = exit_of (Reset now m w)).
Proof.
  intros Hup Hdown Hstatus Hreset. unfold main.
  rewrite Hup, Hdown, Hstatus, Hreset. split.
  - intros Hy HY. rewrite bool_decide_eq_true_2; [done|].
    rewrite ToLower_y. by intros [|].
  - intros Hyes. rewrite bool_decide_eq_false_2; [done|].
    intros Hno. by apply Hno, ToLower_y.
Qed.

End CLIProperties.

(** ** Step 003 run again *)

Section SeedProperties.

Variable GenerateFromPassword : string → error + string.

(** The check before the insert looks for the address [admin]
    ([models.RoleAdmin]); with the seeded row in the table and no row
    of that address, the count is zero, the insert is attempted and
    fails, the hash or the unique index on [email] refusing it. *)
Lemma Migration003_rerun_fails clk (d : DB AppStore) t :
  users_table (store d) = Some t →
  "admin@company.com" ∈ models.Email <$> user_rows t →
  Forall (λ u, models.Email u ≠ "admin") (user_rows t) →
  ∃ e, step_Up (Migration003SeedAdminUser GenerateFromPassword) clk d = (Some e, d, 2%nat).
Proof.
  intros Ht Hseeded Hnone. simpl. unfold Count_where_email. rewrite Ht.
  assert (filter (λ u, models.Email u = models.RoleAdmin ∧ models.DeletedAt u = None)
                 (user_rows t) = []) as ->.
  { clear -Hnone. induction Hnone as [|u us Hu _ IH]; [done|].
    rewrite filter_cons_False; [done|]. by intros [? _]. }
  simpl. unfold Create_user, models.BeforeCreate. simpl.
  destruct (GenerateFromPassword _) as [err|hashed]; simpl; [by eexists|].
  rewrite Ht. rewrite bool_decide_eq_true_2 by done. by eexists.
Qed.

End SeedProperties.

(** C10. Step 003 is not safe to run again: on a [users] table without
    the administrator its forward action returns nil and inserts the row
    of address [admin@company.com]; run on the database this leaves, it
    counts the rows of address [admin], finds none, inserts again and
    returns the error of the unique index, instead of finding the row
    and returning nil. *)
Theorem Migration003_forward_not_rerunnable (clk clk' : nat → Time) :
  let step := Migration003SeedAdminUser Example.hash in
  let '(err1, d1, _) := step_Up step clk Example.unseeded in
  err1 = None ∧
  (∃ t, users_table (store d1) = Some t ∧
        models.Email <$> user_rows t = ["admin@company.com"]) ∧
  step_Up step clk' d1 = (Some (ErrUniqueViolation "idx_users_email"), d1, 2%nat) ∧
  step_Up step clk' Example.seeded
    = (Some (ErrUniqueViolation "idx_users_email"), Example.seeded, 2%nat).
Proof.
  simpl. split_and!; [done | by eexists | reflexivity | reflexivity].
Qed.

(** ** The properties on the small instance *)

Lemma Example_registry_safe : Forall ledger_safe (migrations Example.registry).
Proof.
  cbv [Example.registry Example.registry_broken RegisterMigrations Register NewMigrator
       migrations app].
  repeat (apply List.Forall_cons; [split; intros clk d; reflexivity|]).
  apply List.Forall_nil.
Qed.

Lemma Example_registry_broken_safe : Forall ledger_safe (migrations Example.registry_broken).
Proof.
  cbv [Example.registry Example.registry_broken RegisterMigrations Register NewMigrator
       migrations app].
  repeat (apply List.Forall_cons; [split; intros clk d; reflexivity|]).
  apply List.Forall_nil.
Qed.

Lemma Example_registry_NoDup : NoDup (step_Version <$> migrations Example.registry).
Proof. apply (bool_decide_unpack _). vm_compute. exact I. Qed.

Lemma Example_registry_broken_NoDup :
  NoDup (step_Version <$> migrations Example.registry_broken).
Proof. apply (bool_decide_unpack _). vm_compute. exact I. Qed.

Lemma Example_clock_strict : clock_strict Example.clock.
Proof. intros i j Hij. unfold Example.clock. lia. Qed.


(** [Up] stopped by the forward action of step 002: step 001 stays
    recorded and its table created, the index step 002 wrote is gone. *)
Lemma Up_forward_failure_witness :
  let w1 := (Up Example.clock {| migrations := [Example.step001] |} Example.fresh).1.2 in
  NoDup (step_Version <$> migrations Example.registry_broken) ∧
  Forall ledger_safe (migrations Example.registry_broken) ∧
  migrations Example.registry_broken
    = [Example.step001] ++ Example.step002_broken :: [Example.step003] ∧
  (step_Version Example.step002_broken ∉ Version <$> ledger_rows Example.fresh) ∧
  Up Example.clock {| migrations := [Example.step001] |} Example.fresh
    = (None, w1, [CallUp "001_create_users_table"]) ∧
  step_Up Example.step002_broken (clock_from Example.clock (ticks w1)) (db w1)
    = (Some (errorString "syntax error"),
       {| migrations_table := migrations_table (db w1);
          store := ["users"; "idx_users_email"] |}, 1%nat) ∧
  ∃ w', Up Example.clock Example.registry_broken Example.fresh
        = (Some (Errorf "failed to run migration 002_add_user_indexes"
                   (Errorf "failed to execute migration 002_add_user_indexes"
                      (errorString "syntax error"))),
           w', [CallUp "001_create_users_table"; CallUp "002_add_user_indexes"]) ∧
        db w' = db w1 ∧
        (∃ news, ledger_rows w' = ledger_rows Example.fresh ++ news ∧
                 Version <$> news = ["001_create_users_table"]) ∧
        ∀ r2 w2 tr2, Up Example.clock Example.registry_broken w' = (r2, w2, tr2) →
                     ∃ tr2', tr2 = CallUp "002_add_user_indexes" :: tr2'.
Proof.
  intros w1.
  assert (Hpend : step_Version Example.step002_broken
                  ∉ Version <$> ledger_rows Example.fresh) by apply not_elem_of_nil.
  assert (Hbefore : Up Example.clock {| migrations := [Example.step001] |} Example.fresh
                    = (None, w1, [CallUp "001_create_users_table"]))
    by (vm_compute; reflexivity).
  assert (Hact : step_Up Example.step002_broken (clock_from Example.clock (ticks w1)) (db w1)
                 = (Some (errorString "syntax error"),
                    {| migrations_table := migrations_table (db w1);
                       store := ["users"; "idx_users_email"] |}, 1%nat))
    by reflexivity.
  split_and!;
    [exact Example_registry_broken_NoDup | exact Example_registry_broken_safe
    | reflexivity | exact Hpend | exact Hbefore | exact Hact | ].
  destruct (Up_forward_failure Example.clock Example.registry_broken Example.fresh
              [Example.step001] Example.step002_broken [Example.step003] w1 _ _ _ _
              Example_registry_broken_NoDup Example_registry_broken_safe eq_refl
              Hpend Hbefore Hact)
    as (w' & news & Hup & _ & _ & Hdb & Hrows & _ & Hver & _ & _ & Hagain).
  exists w'. split_and!; [exact Hup | exact Hdb | by exists news |].
  intros r2 w2 tr2 H2. exact (proj1 (Hagain r2 w2 tr2 H2)).
Defined.


(** [Up] twice on the fresh database. *)
Lemma Up_idempotent_witness :
  let w1 := (Up Example.clock Example.registry Example.fresh).1.2 in
  let tr1 := (Up Example.clock Example.registry Example.fresh).2 in
  Forall ledger_safe (migrations Example.registry) ∧
  Up Example.clock Example.registry Example.fresh = (None, w1, tr1) ∧
  Up Example.clock Example.registry w1 = (None, w1, []).
Proof.
  intros w1 tr1.
  assert (Hup : Up Example.clock Example.registry Example.fresh = (None, w1, tr1))
    by (vm_compute; reflexivity).
  split_and!; [exact Example_registry_safe | exact Hup |].
  exact (Up_idempotent _ _ _ _ _ Example_registry_safe Hup).
Defined.


(** [Up] on the fresh database, then [Down]: the record of step 003
    goes, those of steps 001 and 002 stay. *)
Lemma Down_rolls_back_most_recent_witness :
  let w1 := (Up Example.clock Example.registry Example.fresh).1.2 in
  let w2 := (Down Example.clock Example.registry w1).1.2 in
  Forall ledger_safe (migrations Example.registry) ∧
  Down Example.clock Example.registry w1 = (None, w2, [CallDown "003_seed_admin_user"]) ∧
  Version <$> ledger_rows w2 = ["001_create_users_table"; "002_add_user_indexes"] ∧
  (∃ r s before after,
      most_recent (ledger_rows w1) r ∧
      find_step (migrations Example.registry) (Version r) = Some s ∧
      ledger_rows w1 = before ++ r :: after ∧ ledger_rows w2 = before ++ after) ∧
  (∃ kept r, ledger_rows w1 = kept ++ [r] ∧ Version r = "003_seed_admin_user" ∧
             ledger_rows w2 = kept).
Proof.
  intros w1 w2.
  assert (Hup : Up Example.clock Example.registry Example.fresh
                = (None, w1, (Up Example.clock Example.registry Example.fresh).2))
    by (vm_compute; reflexivity).
  assert (Hdown : Down Example.clock Example.registry w1
                  = (None, w2, [CallDown "003_seed_admin_user"]))
    by (vm_compute; reflexivity).
  split_and!; [exact Example_registry_safe | exact Hdown | vm_compute; reflexivity | | ].
  - destruct (Down_rolls_back_most_recent Example.clock Example.registry w1
                Example_registry_safe) as (Hcommit & _ & _).
    destruct (Hcommit _ w2 [CallDown "003_seed_admin_user"] eq_refl)
      as (r & s & before & after & d & n & H);
      [discriminate | apply (bool_decide_unpack _); vm_compute; exact I | exact Hdown |].
    exists r, s, before, after. destruct H as (? & ? & _ & _ & _ & ? & ?). by split_and!.
  - destruct (Down_rolls_back_most_recent Example.clock Example.registry Example.fresh
                Example_registry_safe) as (_ & _ & Hafter).
    destruct (Hafter w1 _ [Example.step001; Example.step002] Example.step003
                Example_clock_strict Example_registry_NoDup eq_refl eq_refl Hup)
      as (kept & r & Hrows & Hv & _ & Hd).
    exists kept, r. split_and!; [exact Hrows | exact Hv |].
    exact (proj2 (Hd w2 _ Hdown)).
Defined.

(** After an [Up] on a Ledger that held step 003 alone, [Down] removes
    the record of step 002: that of step 003, registered last, stays. *)
Lemma Down_after_Up_keeps_last_registered :
  let w1 := (Up Example.clock Example.registry Example.only_003).1.2 in
  let w2 := (Down Example.clock Example.registry w1).1.2 in
  last (step_Version <$> migrations Example.registry) = Some "003_seed_admin_user" ∧
  Up Example.clock Example.registry Example.only_003
    = (None, w1, [CallUp "001_create_users_table"; CallUp "002_add_user_indexes"]) ∧
  Down Example.clock Example.registry w1 = (None, w2, [CallDown "002_add_user_indexes"]) ∧
  Version <$> ledger_rows w1
    = ["003_seed_admin_user"; "001_create_users_table"; "002_add_user_indexes"] ∧
  Version <$> ledger_rows w2 = ["003_seed_admin_user"; "001_create_users_table"].
Proof. vm_compute. by split_and!. Qed.



(** The answer [n] to the [reset] prompt. *)
Lemma main_reset_confirmation_witness :
  main Example.clock Example.layout Example.registry Example.reset_flags "n" Example.fresh
    = (0%nat, Example.fresh, []) ∧
  main Example.clock Example.layout Example.registry Example.reset_flags "y" Example.fresh
    = exit_of (Reset Example.clock Example.registry Example.fresh).
Proof.
  split.
  - apply (main_reset_confirmation Example.clock Example.layout Example.registry
             Example.reset_flags "n" Example.fresh eq_refl eq_refl eq_refl eq_refl);
      discriminate.
  - apply (main_reset_confirmation Example.clock Example.layout Example.registry
             Example.reset_flags "y" Example.fresh eq_refl eq_refl eq_refl eq_refl).
    by left.
Defined.

(** The answer [Y] is not the literal [y], and the reset runs: the
    Ledger is dropped and rebuilt and every forward action is called. *)
Lemma main_reset_proceeds_on_capital_Y :
  "Y" ≠ "y" ∧
  ∃ w', main Example.clock Example.layout Example.registry Example.reset_flags "Y"
             Example.with_orphan
        = (0%nat, w', [CallUp "001_create_users_table"; CallUp "002_add_user_indexes";
                       CallUp "003_seed_admin_user"]) ∧
        w' ≠ Example.with_orphan ∧
        Version <$> ledger_rows w'
          = ["001_create_users_table"; "002_add_user_indexes"; "003_seed_admin_user"].
Proof.
  split; [discriminate|]. eexists. split_and!; [vm_compute; reflexivity | discriminate |].
  vm_compute. reflexivity.
Qed.




(** ** More on [Up]: what it calls, what it records *)

Section UpRecords.

Context {Store : Type}.
Variable now : nat → Time.

Implicit Types (w : World Store) (s : MigrationStep Store)
         (ms : list (MigrationStep Store)) (M : gmap string bool)
         (m : Migrator Store).





(** The table [Up] leaves, whatever it returns: the old rows, then new
    ones with the next IDs and with versions that are new and distinct. *)
Lemma Up_table m w err w' tr :
  Forall ledger_safe (migrations m) →
  Up now m w = (err, w', tr) →
  let t0 := default empty_table (migrations_table (db w)) in
  ∃ news,
    migrations_table (db w')
      = Some {| rows := rows t0 ++ news; next_id := next_id t0 + length news |} ∧
    ID <$> news = seq (next_id t0) (length news) ∧
    NoDup (Version <$> news) ∧
    (∀ v, v ∈ Version <$> news → v ∉ Version <$> rows t0).
Proof.
  intros Hsafe. rewrite Up_unfold. destruct err as [e|]; intros Hup; simpl.
  - apply Up_loop_fail_split
      in Hup as (before & s & after & w1 & e' & Hms & _ & Hbefore & Htx & _).
    apply Up_tx_rollback in Htx as [Hdb _].
    rewrite Hms in Hsafe. apply Forall_app in Hsafe as [Hsafe _].
    eapply Up_loop_ok_ledger in Hbefore
        as (news & ks & Htab & _ & _ & Hid & _ & _ & _ & _ & Hnd & Hnew);
      [|done|reflexivity].
    exists news. rewrite Hdb. by split_and!.
  - eapply Up_loop_ok_ledger in Hup
        as (news & ks & Htab & _ & _ & Hid & _ & _ & _ & _ & Hnd & Hnew);
      [|done|reflexivity].
    exists news. by split_and!.
Qed.


(** X3. A step whose version got recorded earlier in the same [Up] (a
    second step registered under that version): its forward action is
    still called, the insert of its record is refused by the unique
    index, [Up] returns that error, and the database is the one the
    earlier steps left: what the action wrote is rolled back. *)
Theorem Up_record_failure m w before s after w1 tr1 d n :
  preserves_ledger (step_Up s) →
  migrations m = before ++ s :: after →
  step_Version s ∉ Version <$> ledger_rows w →
  Up now {| migrations := before |} w = (None, w1, tr1) →
  step_Up s (clock_from now (ticks w1)) (db w1) = (None, d, n) →
  step_Version s ∈ Version <$> ledger_rows w1 →
  Up now m w
    = (Some (Errorf ("failed to run migration " +:+ step_Version s)
               (Errorf ("failed to record migration " +:+ step_Version s)
                  (ErrUniqueViolation "idx_migrations_version"))),
       {| db := db w1; ticks := S (ticks w1 + n) |},
       tr1 ++ [CallUp (step_Version s)]).
Proof.
  intros Hsafe Hms Hpend Hbefore Hact Hrec.
  rewrite Up_unfold in Hbefore. simpl in Hbefore.
  apply index_bool_build_false in Hpend.
  rewrite Up_unfold, Hms, Up_loop_app, Hbefore. simpl. rewrite Hpend.
  unfold Transaction, Up_tx, call, time_Now. rewrite Hact. simpl.
  specialize (Hsafe (clock_from now (ticks w1)) (db w1)). rewrite Hact in Hsafe.
  simpl in Hsafe. unfold Create. rewrite Hsafe.
  unfold ledger_rows in Hrec.
  destruct (migrations_table (db w1)) as [t1|]; simpl in *.
  - by rewrite bool_decide_eq_true_2.
  - by apply elem_of_nil in Hrec.
Qed.

End UpRecords.

(** ** The constraints of the table, the tie-break, and round trips *)

Section LedgerInvariants.

Context {Store : Type}.
Variable now : nat → Time.
Variable Format : Time → string.

Implicit Types (w : World Store) (s : MigrationStep Store)
         (ms : list (MigrationStep Store)) (m : Migrator Store)
         (r : Migration) (rs : list Migration).

Lemma NoDup_fmap_filter {A B} (f : A → B) (P : A → Prop) `{!∀ x, Decision (P x)}
      (l : list A) :
  NoDup (f <$> l) → NoDup (f <$> filter P l).
Proof.
  induction l as [|x l IH]; [done|]. rewrite fmap_cons, NoDup_cons.
  intros [Hx Hl]. rewrite filter_cons. destruct (decide (P x)); [|by apply IH].
  rewrite fmap_cons. apply NoDup_cons. split; [|by apply IH].
  intros (y & Hy & [_ Hin]%list_elem_of_filter)%list_elem_of_fmap.
  apply Hx. apply list_elem_of_fmap. by exists y.
Qed.

Lemma ledger_wf_grow (t : MigrationsTable) (news : list Migration) :
  ledger_wf t →
  ID <$> news = seq (next_id t) (length news) →
  NoDup (Version <$> news) →
  (∀ v, v ∈ Version <$> news → v ∉ Version <$> rows t) →
  ledger_wf {| rows := rows t ++ news; next_id := next_id t + length news |}.
Proof.
  intros (Hids & Hvs & Hlt) Hid Hnd Hnew. unfold ledger_wf. simpl.
  rewrite !fmap_app. rewrite Forall_forall in Hlt. split_and!.
  - apply NoDup_app. split_and!; [done| |rewrite Hid; apply NoDup_seq].
    intros i (x & -> & Hx)%list_elem_of_fmap. rewrite Hid, elem_of_seq.
    specialize (Hlt x Hx). lia.
  - apply NoDup_app. split_and!; [done| |done].
    intros v Hv Hv'. by apply (Hnew v).
  - apply Forall_app. split.
    + apply Forall_forall. intros x Hx. specialize (Hlt x Hx). simpl. lia.
    + apply Forall_forall. intros x Hx.
      assert (ID x ∈ ID <$> news) as Hin by (apply list_elem_of_fmap; by exists x).
      rewrite Hid, elem_of_seq in Hin. lia.
Qed.

Lemma ledger_wf_delete (t : MigrationsTable) r :
  ledger_wf t →
  ledger_wf {| rows := filter (λ x, ID x ≠ ID r) (rows t); next_id := next_id t |}.
Proof.
  intros (Hids & Hvs & Hlt). unfold ledger_wf. simpl. split_and!.
  - by apply NoDup_fmap_filter.
  - by apply NoDup_fmap_filter.
  - rewrite Forall_forall in *. intros x [_ Hx]%list_elem_of_filter. by apply Hlt.
Qed.

Lemma ledger_wf_empty : ledger_wf empty_table.
Proof. unfold ledger_wf, empty_table. simpl. split_and!; constructor. Qed.

Lemma Down_table m w err w' tr :
  Forall ledger_safe (migrations m) →
  Down now m w = (err, w', tr) →
  migrations_table (db w') = migrations_table (db w) ∨
  ∃ t r, migrations_table (db w) = Some t ∧
         migrations_table (db w')
           = Some {| rows := filter (λ x, ID x ≠ ID r) (rows t); next_id := next_id t |}.
Proof.
  intros Hsafe Hdown. destruct err as [e|].
  { left. apply Down_failure_atomic in Hdown. by rewrite Hdown. }
  revert Hdown. unfold Down, First_order_executed_at_desc.
  destruct (migrations_table (db w)) as [t|] eqn:Ht; [|done].
  destruct (first_row (rows t)) as [r0|]; [|intros [= <- <-]; by left].
  destruct (find_step _ _) as [s|] eqn:Hfind; [|done].
  destruct (Transaction _ w) as [[e1|] w1] eqn:Htx; [done|].
  intros [= <- <-].
  apply find_step_Some in Hfind as [Hs _].
  rewrite Forall_forall in Hsafe. destruct (Hsafe s Hs) as [_ Hsd].
  destruct (Down_tx_commit _ _ _ _ _ _ Hsd Ht Htx) as (d & n & _ & ->).
  right. by exists t, r0.
Qed.

(** X4. The constraints of table [migrations] are kept by the engine:
    if, before, its IDs are distinct and below the sequence and its
    versions are distinct (or the table does not exist), the same holds
    after [Up], after [Down] and after [Reset], whatever they return (no
    step writing the Ledger). *)
Theorem ledger_constraints_kept m w :
  Forall ledger_safe (migrations m) →
  ledger_ok w →
  ledger_ok (Up now m w).1.2 ∧
  ledger_ok (Down now m w).1.2 ∧
  ledger_ok (Reset now m w).1.2.
Proof.
  intros Hsafe Hok.
  assert (Hup : ∀ w0, ledger_ok w0 → ledger_ok (Up now m w0).1.2).
  { intros w0 Hok0. destruct (Up now m w0) as [[err w'] tr] eqn:Hup.
    destruct (Up_table _ _ _ _ _ _ Hsafe Hup) as (news & Htab & Hid & Hnd & Hnew).
    simpl. intros t. rewrite Htab. intros [= <-].
    apply ledger_wf_grow; try done.
    destruct (migrations_table (db w0)) as [t0|] eqn:Ht0; simpl.
    - by apply Hok0.
    - apply ledger_wf_empty. }
  split_and!.
  - by apply Hup.
  - destruct (Down now m w) as [[err w'] tr] eqn:Hdown. simpl.
    destruct (Down_table _ _ _ _ _ Hsafe Hdown) as [Heq|(t & r & Ht & Ht')].
    + intros t. rewrite Heq. apply Hok.
    + intros t'. rewrite Ht'. intros [= <-]. apply ledger_wf_delete. by apply Hok.
  - rewrite Reset_unfold.
    set (w0 := {| db := with_table (db w) None; ticks := ticks w |}).
    assert (ledger_ok (Up now m w0).1.2) as Hr by (apply Hup; by intros t).
    destruct (Up now m w0) as [[[e|] w'] tr]; exact Hr.
Qed.

(** *** The tie-break of [First] *)

Lemma sorts_before_spec (a b : Migration) :
  sorts_before a b = true ↔
  ExecutedAt b < ExecutedAt a ∨ (ExecutedAt a = ExecutedAt b ∧ (ID a < ID b)%nat).
Proof.
  unfold sorts_before.
  rewrite orb_true_iff, andb_true_iff, !bool_decide_eq_true. done.
Qed.

Lemma first_row_minimal rs r :
  first_row rs = Some r → ∀ x, x ∈ rs → sorts_before x r = false.
Proof.
  revert r. induction rs as [|y rs IH]; intros r; simpl; [done|].
  destruct (first_row rs) as [b|] eqn:Hb.
  - specialize (IH b eq_refl).
    destruct (sorts_before b y) eqn:Hby; intros [= <-]; intros x [->|Hx]%elem_of_cons.
    + apply sorts_before_spec in Hby. apply not_true_is_false.
      rewrite sorts_before_spec. lia.
    + by apply IH.
    + apply not_true_is_false. rewrite sorts_before_spec. lia.
    + specialize (IH x Hx). apply not_true_iff_false in Hby, IH.
      rewrite sorts_before_spec in Hby, IH.
      apply not_true_is_false. rewrite sorts_before_spec. lia.
  - apply first_row_None in Hb as ->. intros [= <-] x ->%list_elem_of_singleton.
    apply not_true_is_false. rewrite sorts_before_spec. lia.
Qed.

(** X5. The record [Down] rolls back when several share the latest
    [executedAt]: a [Down] that returns nil on a table with records
    took a record none is more recent than and, among those as recent,
    one of the lowest ID (the one inserted first); it called the
    backward action registered for that version and deleted the rows of
    that ID. *)
Theorem Down_takes_latest_lowest_id m w t w' tr :
  Forall ledger_safe (migrations m) →
  migrations_table (db w) = Some t →
  rows t ≠ [] →
  Down now m w = (None, w', tr) →
  ∃ r, most_recent (rows t) r ∧
       (∀ x, x ∈ rows t → ExecutedAt x = ExecutedAt r → (ID r ≤ ID x)%nat) ∧
       tr = [CallDown (Version r)] ∧
       ledger_rows w' = filter (λ x, ID x ≠ ID r) (rows t).
Proof.
  intros Hsafe Ht Hne Hdown.
  destruct (first_row (rows t)) as [r|] eqn:Hfirst;
    [|by apply first_row_None in Hfirst].
  destruct (find_step (migrations m) (Version r)) as [s|] eqn:Hfind;
    [|by rewrite (Down_orphan _ _ _ _ _ Ht Hfirst Hfind) in Hdown].
  rewrite (Down_found _ _ _ _ _ _ Ht Hfirst Hfind) in Hdown.
  destruct (Transaction _ w) as [[e|] w1] eqn:Htx; [done|].
  injection Hdown as <- <-.
  pose proof (find_step_Some _ _ _ Hfind) as [Hs Hv].
  rewrite Forall_forall in Hsafe. destruct (Hsafe s Hs) as [_ Hsd].
  destruct (Down_tx_commit _ _ _ _ _ _ Hsd Ht Htx) as (d & n & Hact & ->).
  exists r. split_and!; [by apply first_row_most_recent | | by rewrite Hv | done].
  intros x Hx Heq. pose proof (first_row_minimal _ _ Hfirst x Hx) as Hmin.
  apply not_true_iff_false in Hmin. rewrite sorts_before_spec in Hmin. lia.
Qed.

(** *** [Status] after [Up] *)


(** *** [Up], [Down], [Up] *)


(** *** What [Reset] leaves *)


End LedgerInvariants.

(** ** The command line without the table, and [truncate] *)

Section CLIMore.

Context {Store : Type}.
Variable now : nat → Time.
Variable Format : Time → string.

(** X9. On a database in which table [migrations] does not exist (no
    [-up] ever ran), [-down] and [-status] end with exit code 1 and
    leave the world as it is: neither calls [Initialize], so the read
    of the table fails, and for [-down] that is not the case of nothing
    to roll back. *)
Theorem main_down_status_need_the_table (m : Migrator Store) flags response
        (w : World Store) :
  migrations_table (db w) = None →
  upCmd flags = false →
  downCmd flags = true ∨ statusCmd flags = true →
  main now Format m flags response w = (1%nat, w, []).
Proof.
  intros Hnone Hup Hcmd. unfold main. rewrite Hup.
  destruct (downCmd flags).
  - by rewrite Down_no_table.
  - destruct Hcmd as [? | ->]; [done|].
    unfold Status, Find_order_executed_at_asc. by rewrite Hnone.
Qed.

End CLIMore.

Lemma string_length_app (a b : string) :
  String.length (a +:+ b) = (String.length a + String.length b)%nat.
Proof. induction a as [|c a IH]; simpl; [done | by rewrite IH]. Qed.

Lemma substring_0_split (n : nat) (s : string) :
  (n ≤ String.length s)%nat →
  ∃ dropped, s = String.substring 0 n s +:+ dropped ∧
             String.length (String.substring 0 n s) = n.
Proof.
  revert s. induction n as [|n IH]; intros s Hn.
  - exists s. by destruct s.
  - destruct s as [|c s]; simpl in *; [lia|].
    destruct (IH s) as (dropped & Heq & Hlen); [lia|].
    exists dropped. split; [|by rewrite Hlen].
    change (String c s = String c (String.substring 0 n s +:+ dropped)).
    f_equal. exact Heq.
Qed.

(** X10. [truncate s max], for [max] of 3 or more: the result never has
    more than [max] bytes; a string of at most [max] bytes is returned
    as it is; a longer one becomes its first [max - 3] bytes followed by
    three dots, [max] bytes in all. *)
Theorem truncate_bounded (s : string) (max : nat) :
  (3 ≤ max)%nat →
  (String.length (truncate s max) ≤ max)%nat ∧
  ((String.length s ≤ max)%nat → truncate s max = s) ∧
  ((max < String.length s)%nat →
   ∃ kept dropped,
     s = kept +:+ dropped ∧ String.length kept = (max - 3)%nat ∧
     truncate s max = kept +:+ "..." ∧ String.length (truncate s max) = max).
Proof.
  intros Hmax. unfold truncate. case_bool_decide as Hlen.
  - split_and!; [done | done | lia].
  - destruct (substring_0_split (max - 3) s) as (dropped & Heq & Hkept); [lia|].
    assert (String.length (String.substring 0 (max - 3) s +:+ "...") = max) as Hall.
    { rewrite string_length_app, Hkept. simpl. lia. }
    split_and!; [lia | lia |].
    intros _. by exists (String.substring 0 (max - 3) s), dropped.
Qed.

(** ** Package models *)

Section ModelsProperties.

Variable GenerateFromPassword : string → error + string.
Variable CompareHashAndPassword : string → string → option error.

(** X11. [BeforeCreate]: when it returns nil the user keeps every field
    but two: a password that is not empty is replaced by its hash (an
    empty one is kept), and an empty role becomes [user], so that the
    role stored is never empty; it returns an error only when hashing
    fails, and then the user is as before. *)
Theorem BeforeCreate_result (u : models.User) :
  match models.BeforeCreate GenerateFromPassword u with
  | (Some err, u') =>
      models.Password u ≠ "" ∧ GenerateFromPassword (models.Password u) = inl err ∧ u' = u
  | (None, u') =>
      (if decide (models.Password u = "") then models.Password u' = ""
       else GenerateFromPassword (models.Password u) = inr (models.Password u')) ∧
      models.Role u' = (if decide (models.Role u = "") then models.RoleUser
                        else models.Role u) ∧
      models.Role u' ≠ "" ∧
      models.ID u' = models.ID u ∧ models.Email u' = models.Email u ∧
      models.FirstName u' = models.FirstName u ∧ models.LastName u' = models.LastName u ∧
      models.IsActive u' = models.IsActive u ∧ models.CreatedAt u' = models.CreatedAt u ∧
      models.UpdatedAt u' = models.UpdatedAt u ∧ models.DeletedAt u' = models.DeletedAt u
  end.
Proof.
  unfold models.BeforeCreate.
  destruct (decide (models.Password u = "")) as [Hp|Hp].
  - rewrite bool_decide_eq_false_2 by (by intros ?).
    destruct (decide (models.Role u = "")) as [Hr|Hr].
    + rewrite bool_decide_eq_true_2 by done. simpl. by split_and!.
    + rewrite bool_decide_eq_false_2 by done. by split_and!.
  - rewrite bool_decide_eq_true_2 by done.
    destruct (GenerateFromPassword _) as [err|hashed]; [done|]. simpl.
    destruct (decide (models.Role u = "")) as [Hr|Hr].
    + rewrite bool_decide_eq_true_2 by done. simpl. by split_and!.
    + rewrite bool_decide_eq_false_2 by done. simpl. by split_and!.
Qed.

(** X12. A password survives the hook: when bcrypt accepts the hashes
    it makes, a user who went through [BeforeCreate] with a password
    that is not empty passes [CheckPassword] for that password. *)
Theorem CheckPassword_after_BeforeCreate (u u' : models.User) :
  bcrypt_accepts GenerateFromPassword CompareHashAndPassword →
  models.Password u ≠ "" →
  models.BeforeCreate GenerateFromPassword u = (None, u') →
  models.CheckPassword CompareHashAndPassword u' (models.Password u) = true.
Proof.
  intros Hbcrypt Hp. unfold models.BeforeCreate, models.CheckPassword.
  rewrite bool_decide_eq_true_2 by done.
  destruct (GenerateFromPassword _) as [err|hashed] eqn:Hhash; [done|]. simpl.
  apply Hbcrypt in Hhash.
  case_bool_decide; intros [= <-]; simpl; by apply bool_decide_eq_true.
Qed.

(** A password that has the shape of a bcrypt hash. *)
Lemma BeforeUpdate_keeps (changedPassword : bool) (u : models.User) :
  changedPassword = false ∨ models.Password u = "" ∨
  ((60 ≤ String.length (models.Password u))%nat ∧
   String.substring 0 4 (models.Password u) ∈ ["$2a$"; "$2b$"; "$2x$"; "$2y$"]) →
  models.BeforeUpdate GenerateFromPassword changedPassword u = (None, u).
Proof.
  unfold models.BeforeUpdate. intros [-> | [Hp | [Hlen Hprefix]]]; [done | |].
  - rewrite (bool_decide_eq_false_2 (models.Password u ≠ "")) by (by intros ?).
    by rewrite andb_false_r.
  - destruct (changedPassword && _); [|done].
    rewrite (bool_decide_eq_false_2 (_ < 60)%nat) by lia. simpl.
    repeat (apply elem_of_cons in Hprefix as [-> | Hprefix]; [done|]).
    by apply elem_of_nil in Hprefix.
Qed.

(** X13. [BeforeUpdate] hashes the password only when it is flagged as
    changed, is not empty and does not have the shape of a bcrypt hash
    (60 bytes or more, starting with [$2a$], [$2b$], [$2x$] or [$2y$]):
    otherwise the user is returned as it is, so a stored hash is not
    hashed again, and neither is a new password of that shape.  When it
    does hash, only the password changes; a failure of the hash is
    returned and leaves the user as it is. *)
Theorem BeforeUpdate_result (changedPassword : bool) (u : models.User) :
  let shaped :=
    (60 ≤ String.length (models.Password u))%nat ∧
    String.substring 0 4 (models.Password u) ∈ ["$2a$"; "$2b$"; "$2x$"; "$2y$"] in
  (changedPassword = false ∨ models.Password u = "" ∨ shaped →
   models.BeforeUpdate GenerateFromPassword changedPassword u = (None, u)) ∧
  (changedPassword = true → models.Password u ≠ "" → ¬ shaped →
   match GenerateFromPassword (models.Password u) with
   | inl err => models.BeforeUpdate GenerateFromPassword changedPassword u = (Some err, u)
   | inr hashed =>
       ∃ u', models.BeforeUpdate GenerateFromPassword changedPassword u = (None, u') ∧
             models.Password u' = hashed ∧
             models.ID u' = models.ID u ∧ models.Email u' = models.Email u ∧
             models.FirstName u' = models.FirstName u ∧
             models.LastName u' = models.LastName u ∧ models.Role u' = models.Role u ∧
             models.IsActive u' = models.IsActive u ∧
             models.CreatedAt u' = models.CreatedAt u ∧
             models.UpdatedAt u' = models.UpdatedAt u ∧
             models.DeletedAt u' = models.DeletedAt u
   end).
Proof.
  intros shaped. split; [apply BeforeUpdate_keeps|].
  intros -> Hp Hshape. unfold models.BeforeUpdate.
  rewrite (bool_decide_eq_true_2 (models.Password u ≠ "")) by done. simpl.
  assert (bool_decide (String.length (models.Password u) < 60)%nat
          || (bool_decide (String.substring 0 4 (models.Password u) ≠ "$2a$")
              && bool_decide (String.substring 0 4 (models.Password u) ≠ "$2b$")
              && bool_decide (String.substring 0 4 (models.Password u) ≠ "$2x$")
              && bool_decide (String.substring 0 4 (models.Password u) ≠ "$2y$"))
          = true) as ->.
  { destruct (decide (String.length (models.Password u) < 60)%nat) as [Hlt|Hge].
    - by rewrite bool_decide_eq_true_2.
    - rewrite (bool_decide_eq_false_2 (_ < 60)%nat) by done. simpl.
      rewrite !andb_true_iff, !bool_decide_eq_true.
      split_and!; intros Heq; apply Hshape; (split; [lia|]); rewrite Heq;
        repeat first [by left | right]. }
  destruct (GenerateFromPassword _) as [err|hashed]; [done|].
  eexists. by split_and!.
Qed.

(** X14. A user created without a role is a plain user: after
    [BeforeCreate] on an empty role [IsUser] holds and [IsAdmin] and
    [IsEditor] do not; and in general no user passes two of the three
    role checks. *)
Theorem default_role_is_user (u u' : models.User) :
  (models.Role u = "" →
   models.BeforeCreate GenerateFromPassword u = (None, u') →
   models.IsUser u' = true ∧ models.IsAdmin u' = false ∧ models.IsEditor u' = false) ∧
  models.IsAdmin u && models.IsEditor u = false ∧
  models.IsAdmin u && models.IsUser u = false ∧
  models.IsEditor u && models.IsUser u = false.
Proof.
  split.
  - intros Hr. unfold models.BeforeCreate.
    destruct (bool_decide (models.Password u ≠ "")).
    + destruct (GenerateFromPassword _) as [err|hashed]; [done|]. simpl.
      rewrite bool_decide_eq_true_2 by done. by intros [= <-].
    + rewrite bool_decide_eq_true_2 by done. by intros [= <-].
  - unfold models.IsAdmin, models.IsEditor, models.IsUser,
      models.RoleAdmin, models.RoleEditor, models.RoleUser.
    split_and!; repeat case_bool_decide; try done; congruence.
Qed.

End ModelsProperties.

(** ** Package versions: steps 001 and 003 *)

Section VersionsProperties.

Variable GenerateFromPassword : string → error + string.

Lemma Count_zero (d : DB AppStore) t :
  users_table (store d) = Some t →
  Forall (λ u, ¬ (models.Email u = "admin" ∧ models.DeletedAt u = None)) (user_rows t) →
  Count_where_email models.RoleAdmin d = inr 0.
Proof.
  intros Ht Hnone. unfold Count_where_email. rewrite Ht.
  assert (filter (λ u, models.Email u = models.RoleAdmin ∧ models.DeletedAt u = None)
                 (user_rows t) = []) as ->; [|done].
  clear Ht. induction Hnone as [|u us Hu _ IH]; [done|].
  by rewrite filter_cons_False.
Qed.

(** X15. Steps 001 and 003 keep to the contract the engine relies on:
    neither their forward nor their backward action changes table
    [migrations], whatever the database and whatever they return. *)
Theorem versions_steps_ledger_safe :
  ledger_safe Migration001CreateUsersTable ∧ ledger_safe (Migration003SeedAdminUser GenerateFromPassword).
Proof.
  split_and!; split; intros clk d; simpl.
  - by destruct (users_table (store d)).
  - done.
  - unfold Count_where_email, Create_user.
    destruct (users_table (store d)) as [t|] eqn:Ht; [|done].
    case_bool_decide; [done|].
    destruct (models.BeforeCreate _ _) as [[err|] u1]; [done|].
    by case_bool_decide.
  - unfold Delete_where_email. by destruct (users_table (store d)).
Qed.

(** X16. The forward action of step 003 where it does seed: on a
    [users] table without a live row of address [admin] and without any
    row of address [admin@company.com], the hash succeeding, it returns
    nil after two clock readings and appends one row: next ID, address
    [admin@company.com], the hash as password (not the password), John
    Doe, role [admin], active; the other rows and the Ledger are as
    before. *)
Theorem Migration003_seeds clk (d : DB AppStore) t hashed :
  users_table (store d) = Some t →
  Forall (λ u, ¬ (models.Email u = "admin" ∧ models.DeletedAt u = None)) (user_rows t) →
  "admin@company.com" ∉ models.Email <$> user_rows t →
  GenerateFromPassword "Admin123#" = inr hashed →
  step_Up (Migration003SeedAdminUser GenerateFromPassword) clk d
  = (None,
     with_users d
       {| user_rows := user_rows t ++
            [{| models.ID := user_next_id t; models.Email := "admin@company.com";
                models.Password := hashed; models.FirstName := "John";
                models.LastName := "Doe"; models.Role := "admin";
                models.IsActive := true; models.CreatedAt := clk 0%nat;
                models.UpdatedAt := clk 1%nat; models.DeletedAt := None |}];
          user_next_id := S (user_next_id t) |},
     2%nat).
Proof.
  intros Ht Hnone Hfree Hhash. simpl. rewrite (Count_zero d t Ht Hnone). simpl.
  unfold Create_user, models.BeforeCreate. simpl. rewrite Hhash. simpl.
  rewrite Ht. by rewrite bool_decide_eq_false_2.
Qed.

(** X17. The forward action of step 003 where it skips: as soon as a
    live row has the address [admin] it returns nil without a clock
    reading and leaves the database as it is, whether a row of address
    [admin@company.com] exists or not; and without table [users] it
    returns the error of the missing table. *)
Theorem Migration003_skips clk (d : DB AppStore) :
  match users_table (store d) with
  | None => step_Up (Migration003SeedAdminUser GenerateFromPassword) clk d = (Some (ErrUndefinedTable "users"), d, 0%nat)
  | Some t =>
      (∃ u, u ∈ user_rows t ∧ models.Email u = "admin" ∧ models.DeletedAt u = None) →
      step_Up (Migration003SeedAdminUser GenerateFromPassword) clk d = (None, d, 0%nat)
  end.
Proof.
  simpl. unfold Count_where_email.
  destruct (users_table (store d)) as [t|]; [|done].
  intros (u & Hu & He & Hd).
  rewrite bool_decide_eq_true_2; [done|].
  assert (u ∈ filter (λ u, models.Email u = models.RoleAdmin ∧ models.DeletedAt u = None)
                     (user_rows t)) as Hin by (by apply list_elem_of_filter).
  destruct (filter _ _); [by apply elem_of_nil in Hin | simpl; lia].
Qed.

Lemma mark_deleted_emails (email : string) (deletedAt : Time) (us : list models.User) :
  models.Email <$>
    ((λ u, if bool_decide (models.Email u = email ∧ models.DeletedAt u = None)
           then {| models.ID := models.ID u; models.Email := models.Email u;
                   models.Password := models.Password u;
                   models.FirstName := models.FirstName u;
                   models.LastName := models.LastName u;
                   models.Role := models.Role u;
                   models.IsActive := models.IsActive u;
                   models.CreatedAt := models.CreatedAt u;
                   models.UpdatedAt := models.UpdatedAt u;
                   models.DeletedAt := Some deletedAt |}
           else u) <$> us)
  = models.Email <$> us.
Proof.
  induction us as [|u us IH]; [done|]. rewrite !fmap_cons, IH. f_equal.
  by case_bool_decide.
Qed.

(** X18. The backward action of step 003 deletes softly, and the step
    cannot be applied again after it: on a table that holds the row of
    address [admin@company.com] (and no row of address [admin]) it
    returns nil, keeps every row and every address and leaves no live
    row of that address; the forward action run on the result returns
    an error and changes nothing. *)
Theorem Migration003_Down_then_Up clk clk' (d : DB AppStore) t :
  users_table (store d) = Some t →
  "admin@company.com" ∈ models.Email <$> user_rows t →
  Forall (λ u, models.Email u ≠ "admin") (user_rows t) →
  ∃ d2 t2,
    step_Down (Migration003SeedAdminUser GenerateFromPassword) clk d = (None, d2, 1%nat) ∧
    migrations_table d2 = migrations_table d ∧
    users_table (store d2) = Some t2 ∧
    models.Email <$> user_rows t2 = models.Email <$> user_rows t ∧
    ("admin@company.com" ∉ models.Email <$> live_users t2) ∧
    ∃ e, step_Up (Migration003SeedAdminUser GenerateFromPassword) clk' d2 = (Some e, d2, 2%nat).
Proof.
  intros Ht Hseeded Hnone. simpl. unfold Delete_where_email. rewrite Ht.
  eexists _, _. split_and!; [reflexivity | done | reflexivity | | |].
  - apply mark_deleted_emails.
  - simpl. unfold live_users. simpl.
    intros (u & Heq & [Hlive Hin]%list_elem_of_filter)%list_elem_of_fmap.
    apply list_elem_of_fmap in Hin as (u0 & -> & Hu0).
    case_bool_decide as Hcase; simpl in *; [done|].
    apply Hcase. by split.
  - eapply Migration003_rerun_fails; [reflexivity | |].
    + simpl. by rewrite mark_deleted_emails.
    + simpl. apply Forall_fmap. eapply Forall_impl; [exact Hnone|].
      intros u Hu. simpl. by case_bool_decide.
Qed.


End VersionsProperties.

(** ** The further properties on the small instance *)

Lemma Example_registry_duplicate_safe :
  Forall ledger_safe (migrations Example.registry_duplicate).
Proof.
  cbv [Example.registry_duplicate Register NewMigrator migrations app].
  repeat (apply List.Forall_cons; [split; intros clk d; reflexivity|]).
  apply List.Forall_nil.
Qed.

Lemma Example_bcrypt_accepts : bcrypt_accepts Example.hash Example.compare.
Proof.
  intros password hashed [= <-]. unfold Example.compare.
  by rewrite bool_decide_eq_true_2.
Qed.

Lemma Example_with_orphan_ok : ledger_ok Example.with_orphan.
Proof.
  intros t [= <-]. unfold ledger_wf. simpl.
  split_and!; [apply (bool_decide_unpack _); vm_compute; exact I
              | apply (bool_decide_unpack _); vm_compute; exact I
              | repeat constructor].
Qed.


(** Two steps registered under the version of step 001. *)
Lemma Up_record_failure_witness :
  let w1 := (Up Example.clock {| migrations := [Example.step001] |} Example.fresh).1.2 in
  preserves_ledger (step_Up Example.step001_again) ∧
  (step_Version Example.step001_again ∉ Version <$> ledger_rows Example.fresh) ∧
  Up Example.clock {| migrations := [Example.step001] |} Example.fresh
    = (None, w1, [CallUp "001_create_users_table"]) ∧
  step_Version Example.step001_again ∈ Version <$> ledger_rows w1 ∧
  Up Example.clock Example.registry_duplicate Example.fresh
    = (Some (Errorf "failed to run migration 001_create_users_table"
               (Errorf "failed to record migration 001_create_users_table"
                  (ErrUniqueViolation "idx_migrations_version"))),
       {| db := db w1; ticks := 2 |},
       [CallUp "001_create_users_table"; CallUp "001_create_users_table"]) ∧
  store (db w1) = ["users"].
Proof.
  intros w1.
  assert (Hsafe : preserves_ledger (step_Up Example.step001_again))
    by (intros clk d; reflexivity).
  assert (Hpend : step_Version Example.step001_again
                  ∉ Version <$> ledger_rows Example.fresh) by apply not_elem_of_nil.
  assert (Hbefore : Up Example.clock {| migrations := [Example.step001] |} Example.fresh
                    = (None, w1, [CallUp "001_create_users_table"]))
    by (vm_compute; reflexivity).
  assert (Hrec : step_Version Example.step001_again ∈ Version <$> ledger_rows w1)
    by (vm_compute; by left).
  split_and!; [exact Hsafe | exact Hpend | exact Hbefore | exact Hrec | | reflexivity].
  exact (Up_record_failure Example.clock Example.registry_duplicate Example.fresh
           [Example.step001] Example.step001_again [] w1 _ _ 0%nat
           Hsafe eq_refl Hpend Hbefore eq_refl Hrec).
Defined.

(** The constraints on the Ledger that holds an older record. *)
Lemma ledger_constraints_kept_witness :
  Forall ledger_safe (migrations Example.registry) ∧
  ledger_ok Example.with_orphan ∧
  ledger_ok (Up Example.clock Example.registry Example.with_orphan).1.2 ∧
  ledger_ok (Down Example.clock Example.registry Example.with_orphan).1.2 ∧
  ledger_ok (Reset Example.clock Example.registry Example.with_orphan).1.2.
Proof.
  split_and!; [exact Example_registry_safe | exact Example_with_orphan_ok
              | apply (ledger_constraints_kept Example.clock Example.registry
                         Example.with_orphan Example_registry_safe
                         Example_with_orphan_ok)..].
Defined.

(** With a clock that stands still the three records of an [Up] share
    their [executedAt], and [Down] rolls back step 001, applied first. *)
Lemma Down_takes_latest_lowest_id_witness :
  let w1 := (Up Example.frozen Example.registry Example.fresh).1.2 in
  let r := Down Example.frozen Example.registry w1 in
  Forall ledger_safe (migrations Example.registry) ∧
  ExecutedAt <$> ledger_rows w1 = [1000; 1000; 1000] ∧
  r = (None, r.1.2, [CallDown "001_create_users_table"]) ∧
  Version <$> ledger_rows r.1.2 = ["002_add_user_indexes"; "003_seed_admin_user"] ∧
  ∃ x, most_recent (ledger_rows w1) x ∧ r.2 = [CallDown (Version x)] ∧
       ledger_rows r.1.2 = filter (λ y, ID y ≠ ID x) (ledger_rows w1).
Proof.
  intros w1 r.
  assert (Hdown : r = (None, r.1.2, [CallDown "001_create_users_table"]))
    by (vm_compute; reflexivity).
  split_and!; [exact Example_registry_safe | vm_compute; reflexivity | exact Hdown
              | vm_compute; reflexivity |].
  destruct (Down_takes_latest_lowest_id Example.frozen Example.registry w1 _ r.1.2
              [CallDown "001_create_users_table"] Example_registry_safe eq_refl)
    as (x & Hrecent & _ & Htr & Hrows); [discriminate | exact Hdown |].
  exists x. by split_and!.
Defined.




(** [-down] and [-status] on the fresh database. *)
Lemma main_down_status_need_the_table_witness :
  main Example.clock Example.layout Example.registry
       {| upCmd := false; downCmd := true; statusCmd := false; resetCmd := false;
          createCmd := "" |} "" Example.fresh
    = (1%nat, Example.fresh, []) ∧
  main Example.clock Example.layout Example.registry
       {| upCmd := false; downCmd := false; statusCmd := true; resetCmd := false;
          createCmd := "" |} "" Example.fresh
    = (1%nat, Example.fresh, []).
Proof.
  split.
  - apply main_down_status_need_the_table; [reflexivity | reflexivity | by left].
  - apply main_down_status_need_the_table; [reflexivity | reflexivity | by right].
Defined.

(** The description of step 002, cut to 24 bytes. *)
Lemma truncate_bounded_witness :
  (3 ≤ 24)%nat ∧
  (String.length (truncate "Add indexes to users table" 24) ≤ 24)%nat ∧
  truncate "Create users table" 24 = "Create users table" ∧
  ∃ kept dropped,
    "Add indexes to users table" = kept +:+ dropped ∧ String.length kept = 21%nat ∧
    truncate "Add indexes to users table" 24 = kept +:+ "...".
Proof.
  destruct (truncate_bounded "Add indexes to users table" 24 ltac:(lia))
    as (Hle & _ & Hlong).
  destruct (truncate_bounded "Create users table" 24 ltac:(lia)) as (_ & Hshort & _).
  split_and!; [lia | exact Hle | apply Hshort; simpl; lia |].
  destruct Hlong as (kept & dropped & Heq & Hkept & Htr & _); [simpl; lia|].
  by exists kept, dropped.
Defined.

(** A new user through the hook, then the password check. *)
Lemma CheckPassword_after_BeforeCreate_witness :
  let u' := (models.BeforeCreate Example.hash Example.new_user).2 in
  bcrypt_accepts Example.hash Example.compare ∧
  models.Password Example.new_user ≠ "" ∧
  models.BeforeCreate Example.hash Example.new_user = (None, u') ∧
  models.Password u' = "$2a$10$secret-password" ∧
  models.CheckPassword Example.compare u' "secret-password" = true.
Proof.
  intros u'.
  split_and!; [exact Example_bcrypt_accepts | discriminate | reflexivity | reflexivity |].
  apply (CheckPassword_after_BeforeCreate Example.hash Example.compare Example.new_user u'
           Example_bcrypt_accepts); [discriminate | reflexivity].
Defined.

(** Step 003 on the table without the administrator. *)
Lemma Migration003_seeds_witness :
  ∃ d1 t1,
    step_Up (Migration003SeedAdminUser Example.hash) Example.clock Example.unseeded
      = (None, d1, 2%nat) ∧
    users_table (store d1) = Some t1 ∧
    models.Email <$> user_rows t1 = ["admin@company.com"] ∧
    models.Password <$> user_rows t1 = ["$2a$10$Admin123#"].
Proof.
  eexists _, _. split_and!.
  - apply (Migration003_seeds Example.hash Example.clock Example.unseeded _
             "$2a$10$Admin123#" eq_refl); [constructor | apply not_elem_of_nil | reflexivity].
  - reflexivity.
  - reflexivity.
  - reflexivity.
Defined.

(** Step 003 on the seeded table: rolled back, then applied again. *)
Lemma Migration003_Down_then_Up_witness :
  ∃ d2 t2,
    step_Down (Migration003SeedAdminUser Example.hash) Example.clock Example.seeded
      = (None, d2, 1%nat) ∧
    users_table (store d2) = Some t2 ∧
    models.Email <$> user_rows t2 = ["admin@company.com"] ∧
    ∃ e, step_Up (Migration003SeedAdminUser Example.hash) Example.clock d2
         = (Some e, d2, 2%nat).
Proof.
  destruct (Migration003_Down_then_Up Example.hash Example.clock Example.clock
              Example.seeded _ eq_refl) as (d2 & t2 & Hdown & _ & Ht2 & Hemails & _ & Hup).
  - simpl. by left.
  - simpl. repeat constructor. discriminate.
  - exists d2, t2. by split_and!.
Defined.

(** [BeforeUpdate] on a stored hash and on a new password. *)
Lemma BeforeUpdate_result_witness :
  models.BeforeUpdate Example.hash true Example.stored_user = (None, Example.stored_user) ∧
  ∃ u', models.BeforeUpdate Example.hash true Example.new_user = (None, u') ∧
        models.Password u' = "$2a$10$secret-password" ∧
        models.Email u' = models.Email Example.new_user.
Proof.
  destruct (BeforeUpdate_result Example.hash true Example.stored_user) as [Hkeep _].
  destruct (BeforeUpdate_result Example.hash true Example.new_user) as [_ Hhash].
  split.
  - apply Hkeep. right. right. split; [vm_compute; lia | by left].
  - destruct Hhash as (u' & Hupd & Hpw & _ & Hemail & _);
      [reflexivity | discriminate | intros [Hlen _]; vm_compute in Hlen; lia |].
    exists u'. by split_and!.
Defined.

(** A user created without a role. *)
Lemma default_role_is_user_witness :
  let u' := (models.BeforeCreate Example.hash Example.new_user).2 in
  models.Role Example.new_user = "" ∧
  models.IsUser u' = true ∧ models.IsAdmin u' = false ∧ models.IsEditor u' = false.
Proof.
  intros u'.
  destruct (default_role_is_user Example.hash Example.new_user u') as [Hdefault _].
  split; [reflexivity|]. by apply Hdefault.
Defined.

(** Step 003 on a table in which the address [admin] is taken: nothing
    is seeded. *)
Lemma Migration003_skips_witness :
  step_Up (Migration003SeedAdminUser Example.hash) Example.clock Example.address_taken
    = (None, Example.address_taken, 0%nat) ∧
  step_Up (Migration003SeedAdminUser Example.hash) Example.clock Example.no_tables
    = (Some (ErrUndefinedTable "users"), Example.no_tables, 0%nat).
Proof.
  split.
  - apply (Migration003_skips Example.hash Example.clock Example.address_taken).
    eexists. split; [by left | by split].
  - exact (Migration003_skips Example.hash Example.clock Example.no_tables).
Defined.
